(** * Session-scoped chat relay: a model of [server.js] and its properties

    The development embeds the Express server of the repository
    ([server.js]: the [/api/chat], [/api/health] and [/api/chat/:sessionId]
    routes together with the process-wide [chatSessions] map) as Rocq
    functions over an explicit server state, and proves the properties the
    specification states about it.

    Conventions.
    - A JavaScript string is a Rocq [string]; each character stands for one
      code unit below 256.
    - The generative-AI SDK is an external collaborator.  What it does is an
      input of the model ([InitOutcome], [SendOutcome]); what the server
      asks of it is recorded in the state (the [chats] store and the [sent]
      log of every chat object).
    - A chat object has an identity: [startChat] allocates a fresh cell in
      [chats], and [chatSessions] maps a session key to the index of a cell,
      as the JavaScript [Map] holds a reference to the object. *)

From Stdlib Require QArith_base.
From stdpp Require Import gmap strings list fin_maps pretty.

(** ** JavaScript values and string helpers *)

Module Js.

(** The values a request can carry.  [VNumber] holds the integral
    numbers; [VObject] is any non-null object (plain object or array) and
    carries the only thing the server observes of it, the text its
    conversion to a string yields ("[object Object]" for a plain
    object). *)
Inductive JsValue : Type :=
| VUndefined
| VNull
| VBool (b : bool)
| VNumber (n : Z)
| VString (s : string)
| VObject (str : string).

#[global] Instance JsValue_eq_dec : EqDecision JsValue.
Proof. solve_decision. Defined.

(** [typeof v] *)
Definition typeof (v : JsValue) : string :=
  match v with
  | VUndefined => "undefined"
  | VNull => "object"
  | VBool _ => "boolean"
  | VNumber _ => "number"
  | VString _ => "string"
  | VObject _ => "object"
  end.

(** [!v]: true on the falsy values. *)
Definition not (v : JsValue) : bool :=
  match v with
  | VUndefined | VNull => true
  | VBool b => negb b
  | VNumber n => bool_decide (n = 0%Z)
  | VString s => bool_decide (s = "")
  | VObject _ => false
  end.

(** The conversion a template literal [`${v}`] applies. *)
Definition toString (v : JsValue) : string :=
  match v with
  | VUndefined => "undefined"
  | VNull => "null"
  | VBool true => "true"
  | VBool false => "false"
  | VNumber n => pretty n
  | VString s => s
  | VObject str => str
  end.

(** A destructuring default [{ x = d }]: it applies to [undefined] only. *)
Definition or_default (v d : JsValue) : JsValue :=
  match v with
  | VUndefined => d
  | _ => v
  end.

(** [arr.includes(v)] on an array of strings (SameValueZero comparison:
    only a string equals a string). *)
Definition array_includes (arr : list string) (v : JsValue) : bool :=
  match v with
  | VString s => bool_decide (s ∈ arr)
  | _ => false
  end.

(** White space and line terminators of ECMAScript among the code units
    below 256: TAB, LF, VT, FF, CR, SP and NBSP. *)
Definition is_white_space (c : Ascii.ascii) : bool :=
  let n := Ascii.nat_of_ascii c in
  bool_decide (n = 9 ∨ n = 10 ∨ n = 11 ∨ n = 12 ∨ n = 13 ∨ n = 32 ∨ n = 160).

Fixpoint trimStart (s : string) : string :=
  match s with
  | EmptyString => EmptyString
  | String c t => if is_white_space c then trimStart t else s
  end.

Fixpoint trimEnd (s : string) : string :=
  match s with
  | EmptyString => EmptyString
  | String c t =>
      match trimEnd t with
      | EmptyString => if is_white_space c then EmptyString else String c EmptyString
      | t' => String c t'
      end
  end.

(** [s.trim()] *)
Definition trim (s : string) : string := trimEnd (trimStart s).

(** Every code unit of [s] is white space. *)
Fixpoint all_white_space (s : string) : bool :=
  match s with
  | EmptyString => true
  | String c t => is_white_space c && all_white_space t
  end.

(** [hay.startsWith(needle)] *)
Fixpoint startsWith (needle hay : string) : bool :=
  match needle, hay with
  | EmptyString, _ => true
  | String a n, String b h => bool_decide (a = b) && startsWith n h
  | String _ _, EmptyString => false
  end.

(** [hay.includes(needle)] on strings: [needle] occurs in [hay]. *)
Fixpoint includes (needle hay : string) : bool :=
  startsWith needle hay ||
  match hay with
  | EmptyString => false
  | String _ h => includes needle h
  end.

(** [needle] occurs in [hay]: the meaning of [String.prototype.includes]. *)
Definition occurs_in (needle hay : string) : Prop :=
  ∃ pre post : string, hay = pre +:+ needle +:+ post.

(** The object [res.json] sends: [JSON.stringify] leaves out the
    properties whose value is [undefined]. *)
Definition json (props : list (string * JsValue)) : list (string * JsValue) :=
  filter (λ p, p.2 ≠ VUndefined) props.

(** Property access on a sent object. *)
Fixpoint field (name : string) (obj : list (string * JsValue)) : option JsValue :=
  match obj with
  | [] => None
  | (k, v) :: rest => if bool_decide (k = name) then Some v else field name rest
  end.

End Js.

Import Js.

(** ** The server *)

Module Relay.

(** [generationConfig] of [startChat]; the decimal literals are kept as
    exact fractions. *)
Record GenerationConfig : Type := {
  maxOutputTokens : Z;
  temperature : QArith_base.Q;
  topP : QArith_base.Q;
  topK : Z
}.

(** A chat object of the SDK, as [getGenerativeModel] and [startChat]
    build it, with the log of the texts [sendMessage] was called with
    (oldest first). *)
Record ChatSession : Type := {
  model : string;
  systemInstruction : option string;
  history : list string;
  generationConfig : GenerationConfig;
  sent : list string
}.

(** The process state: the chat objects allocated so far and the
    [chatSessions] map from session key to chat object. *)
Record Server : Type := {
  chats : list ChatSession;
  chatSessions : gmap string nat
}.

(** [new Map()] at start-up. *)
Definition start : Server := {| chats := []; chatSessions := ∅ |}.

Record Response : Type := {
  status : Z;
  body : list (string * JsValue)
}.

(** [res.json(obj)] answers 200; [res.status(c).json(obj)] answers [c]. *)
Definition res_json (obj : list (string * JsValue)) : Response :=
  {| status := 200; body := json obj |}.

Definition res_status_json (c : Z) (obj : list (string * JsValue)) : Response :=
  {| status := c; body := json obj |}.

(** [req.body] of [POST /api/chat], an object whose three properties may
    be missing ([VUndefined]). *)
Record ChatBody : Type := {
  message : JsValue;
  userType : JsValue;
  sessionId : JsValue
}.

(** The [instructions] table. *)
Definition instructions_aspiring : string :=
"You are an entrepreneurship AI mentor and people can ask you suggestions and instructions to how to start or implement their business idea in real time. You have to provide them the step by step procedures to implement their business and helps them to become an entrepreneur.
    
    Focus on:
    - Step-by-step implementation procedures
    - Practical and actionable advice
    - Legal requirements and compliance
    - Market validation strategies
    - Startup fundamentals and best practices
    - Resource allocation and budgeting
    - Timeline planning and milestones
    
    Always provide detailed, structured responses with clear action items.".

Definition instructions_existing : string :=
"You are a business growth strategist and digital transformation expert.
    Help existing business owners scale, automate, and digitally transform their businesses.
    Provide suggestions on marketing strategies, technology adoption, operational efficiency, and funding options.
    Focus on growth tactics, competitive positioning, and sustainable business expansion.
    
    Always provide step-by-step guidance for implementation.".

Definition instructions_general : string :=
"You are an entrepreneurship AI mentor and people can ask you suggestions and instructions to how to start or implement their business idea in real time. You have to provide them the step by step procedures to implement their business and helps them to become an entrepreneur.".

(** [instructions[k]]; [None] is [undefined]. *)
Definition instructions (k : string) : option string :=
  if bool_decide (k = "aspiring") then Some instructions_aspiring
  else if bool_decide (k = "existing") then Some instructions_existing
  else if bool_decide (k = "general") then Some instructions_general
  else None.

Definition validUserTypes : list string := ["aspiring"; "existing"; "general"].

(** [validUserTypes.includes(userType) ? userType : 'general'] *)
Definition selectedUserType (userType : JsValue) : string :=
  if array_includes validUserTypes userType then toString userType else "general".

(** [`${selectedUserType}_${sessionId}`] *)
Definition sessionKey (selected : string) (sessionId : JsValue) : string :=
  selected +:+ "_" +:+ toString sessionId.

(** The session key [POST /api/chat] computes for a body, defaults
    included. *)
Definition chat_key (b : ChatBody) : string :=
  sessionKey (selectedUserType (or_default (userType b) (VString "general")))
             (or_default (sessionId b) (VString "default")).

(** The text of a value known to be a string (the validation has
    passed, or [||] has not short-circuited). *)
Definition string_of (v : JsValue) : string :=
  match v with
  | VString s => s
  | _ => ""
  end.

(** The input validation of [POST /api/chat]:
    [!message || typeof message !== 'string' || message.trim().length === 0] *)
Definition message_rejected (m : JsValue) : bool :=
  Js.not m
  || negb (bool_decide (typeof m = "string"))
  || bool_decide (String.length (trim (string_of m)) = 0).

(** What the SDK does when a chat object is asked for. *)
Inductive InitOutcome : Type :=
| InitOk
| GetModelThrows (modelError : string)
| StartChatThrows (modelError : string).

(** How [await Promise.race([chatPromise, timeoutPromise])] and the
    reading of the reply end: with the reply text, with an error thrown
    (its [message]), or with the 30 second timer first. *)
Inductive SendOutcome : Type :=
| Replied (text : string)
| Threw (errorMessage : string)
| TimerFirst.

(** [model.startChat({history: [], generationConfig: {...}})] on
    [genAI.getGenerativeModel({model: "gemini-1.5-flash", systemInstruction})] *)
Definition startChat (instruction : option string) : ChatSession :=
  {| model := "gemini-1.5-flash";
     systemInstruction := instruction;
     history := [];
     generationConfig :=
       {| maxOutputTokens := 1500;
          temperature := QArith_base.Qmake 7 10;
          topP := QArith_base.Qmake 8 10;
          topK := 40 |};
     sent := [] |}.

(** [chat.sendMessage(text)]: the call is recorded on the chat object. *)
Definition sendMessage (text : string) (c : ChatSession) : ChatSession :=
  {| model := model c;
     systemInstruction := systemInstruction c;
     history := history c;
     generationConfig := generationConfig c;
     sent := sent c ++ [text] |}.

(** The error caught by the outer [catch]: its [message]. *)
Definition caught (o : SendOutcome) : option string :=
  match o with
  | Replied _ => None
  | Threw m => Some m
  | TimerFirst => Some "Request timeout"
  end.

(** The status chosen by the outer [catch]. *)
Definition statusCode (errorMessage : string) : Z :=
  if bool_decide (errorMessage = "Request timeout") then 408
  else if includes "API key" errorMessage then 401
  else if includes "quota" errorMessage then 429
  else 500.

(** The [error] text chosen by the outer [catch]. *)
Definition errorMessage (message : string) : string :=
  if bool_decide (message = "Request timeout") then "Request timed out. Please try again."
  else if includes "API key" message then "Invalid API configuration"
  else if includes "quota" message then "API quota exceeded. Please try again later."
  else "Failed to process chat message".

(** A request suspended at its [await]: what the rest of the handler
    still refers to. *)
Record Pending : Type := {
  p_chat : nat;
  p_sessionKey : string;
  p_userType : string;
  p_sessionId : JsValue
}.

(** The handler of [POST /api/chat] up to its first [await]: validation,
    get-or-create of the chat object and the call of [sendMessage].  It
    runs without interruption; it ends with a response or suspended. *)
Definition chat_begin (b : ChatBody) (io : InitOutcome) (st : Server)
  : Server * (Response + Pending) :=
  let userType := or_default (userType b) (VString "general") in
  let sessionId := or_default (sessionId b) (VString "default") in
  if message_rejected (message b) then
    (st, inl (res_status_json 400
       [("error", VString "Message is required and must be a non-empty string");
        ("success", VBool false)]))
  else
    let text := string_of (message b) in
    let selected := selectedUserType userType in
    let key := sessionKey selected sessionId in
    let send (r : nat) (st1 : Server) : Server * (Response + Pending) :=
      ({| chats := alter (sendMessage (trim text)) r (chats st1);
          chatSessions := chatSessions st1 |},
       inr {| p_chat := r; p_sessionKey := key;
              p_userType := selected; p_sessionId := sessionId |}) in
    match chatSessions st !! key with
    | Some r => send r st
    | None =>
        match io with
        | InitOk =>
            let r := length (chats st) in
            send r {| chats := chats st ++ [startChat (instructions selected)];
                      chatSessions := <[key := r]> (chatSessions st) |}
        | GetModelThrows _ | StartChatThrows _ =>
            (st, inl (res_status_json 500
               [("error", VString "Failed to initialize AI model");
                ("details", VString "Please check API key and model configuration");
                ("success", VBool false)]))
        end
    end.

(** The handler after its [await]: the success response, or the outer
    [catch].  [NODE_ENV] is [process.env.NODE_ENV] ([None] when unset) and
    [now] is [new Date().toISOString()]. *)
Definition chat_end (NODE_ENV : option string) (now : string)
    (p : Pending) (o : SendOutcome) : Response :=
  match o with
  | Replied reply =>
      res_json
        [("reply", VString (trim reply));
         ("userType", VString (p_userType p));
         ("sessionId", p_sessionId p);
         ("success", VBool true);
         ("timestamp", VString now)]
  | Threw _ | TimerFirst =>
      let m := default "" (caught o) in
      res_status_json (statusCode m)
        [("error", VString (errorMessage m));
         ("details", if bool_decide (NODE_ENV = Some "development")
                     then VString m else VUndefined);
         ("success", VBool false);
         ("timestamp", VString now)]
  end.

(** [app.post('/api/chat', ...)] run from request to response. *)
Definition post_chat (NODE_ENV : option string) (now : string)
    (b : ChatBody) (io : InitOutcome) (o : SendOutcome) (st : Server)
  : Server * Response :=
  match chat_begin b io st with
  | (st', inl r) => (st', r)
  | (st', inr p) => (st', chat_end NODE_ENV now p o)
  end.

(** [app.get('/api/health', ...)] *)
Definition get_health (st : Server) : Server * Response :=
  (st, res_json [("status", VString "OK");
                 ("message", VString "Chatbot API is running")]).

(** [app.delete('/api/chat/:sessionId', ...)]: [sessionId] is the path
    parameter, [userType] the query parameter ([VUndefined] when the
    query has none). *)
Definition delete_key (sessionId : string) (userType : JsValue) : string :=
  toString (or_default userType (VString "aspiring")) +:+ "_" +:+ sessionId.

Definition delete_chat (sessionId : string) (userType : JsValue) (st : Server)
  : Server * Response :=
  ({| chats := chats st;
      chatSessions := delete (delete_key sessionId userType) (chatSessions st) |},
   res_json [("message", VString "Chat session cleared")]).

(** The server states the routes can produce from start-up. *)
Inductive reachable : Server → Prop :=
| reach_start : reachable start
| reach_post NODE_ENV now b io o st :
    reachable st → reachable (post_chat NODE_ENV now b io o st).1
| reach_delete sessionId userType st :
    reachable st → reachable (delete_chat sessionId userType st).1
| reach_health st :
    reachable st → reachable (get_health st).1.

(** A chat object as [startChat] returned it, whatever was sent through it
    since. *)
Definition initialised (c : ChatSession) : Prop :=
  model c = "gemini-1.5-flash" ∧
  is_Some (systemInstruction c) ∧
  history c = [] ∧
  generationConfig c = generationConfig (startChat None).

(** Every entry of the session table refers to an initialised chat
    object. *)
Definition entries_initialised (st : Server) : Prop :=
  ∀ k r, chatSessions st !! k = Some r →
         ∃ c, chats st !! r = Some c ∧ initialised c.

(** A message that is absent, not a string, or empty once trimmed. *)
Definition absent_or_blank (m : JsValue) : Prop :=
  m = VUndefined ∨ typeof m ≠ "string" ∨ ∃ s, m = VString s ∧ trim s = "".

Definition validation_error : Response :=
  {| status := 400;
     body := [("error", VString "Message is required and must be a non-empty string");
              ("success", VBool false)] |}.

Definition model_init_error : Response :=
  {| status := 500;
     body := [("error", VString "Failed to initialize AI model");
              ("details", VString "Please check API key and model configuration");
              ("success", VBool false)] |}.

(** The state and the suspended request after [sendMessage] was called
    on the chat object [r]. *)
Definition sending (b : ChatBody) (key : string) (r : nat) (cs : list ChatSession)
    (tbl : gmap string nat) : Server * (Response + Pending) :=
  ({| chats := alter (sendMessage (trim (string_of (message b)))) r cs;
      chatSessions := tbl |},
   inr {| p_chat := r; p_sessionKey := key;
          p_userType := selectedUserType (or_default (userType b) (VString "general"));
          p_sessionId := or_default (sessionId b) (VString "default") |}).

End Relay.

(** ** The keys of the session table *)

Module Sessions.

Import Relay.

(** The shape of a stored key: a valid user type, an underscore and the
    text of a session identifier. *)
Definition category_sessionId (k : string) : Prop :=
  ∃ (category : string) (sessionId : JsValue),
    category ∈ validUserTypes ∧ k = category +:+ "_" +:+ toString sessionId.

End Sessions.

(** ** The routes of the application *)

Module Router.

Inductive Method : Type := GET | HEAD | POST | PUT | PATCH | DELETE | OPTIONS.

#[global] Instance Method_eq_dec : EqDecision Method.
Proof. solve_decision. Defined.

(** The handlers [server.js] registers. *)
Inductive Route : Type :=
| RChat
| RHealth
| RClear.

#[global] Instance Route_eq_dec : EqDecision Route.
Proof. solve_decision. Defined.

(** [app.post('/api/chat', ...)], [app.get('/api/health', ...)] and
    [app.delete('/api/chat/:sessionId', ...)], in the order of
    registration. *)
Definition registered : list (Method * string * Route) :=
  [(POST, "/api/chat", RChat);
   (GET, "/api/health", RHealth);
   (DELETE, "/api/chat/:sessionId", RClear)].

(** The segments of a path between its slashes: ["/api/chat"] has the
    segments [""], ["api"] and ["chat"]. *)
Fixpoint segments (path : string) : list string :=
  match path with
  | EmptyString => [EmptyString]
  | String c rest =>
      if bool_decide (String c EmptyString = "/") then EmptyString :: segments rest
      else match segments rest with
           | seg :: segs => String c seg :: segs
           | [] => [String c EmptyString]
           end
  end.

Definition lower (c : Ascii.ascii) : Ascii.ascii :=
  let n := Ascii.nat_of_ascii c in
  if bool_decide (65 ≤ n ≤ 90) then Ascii.ascii_of_nat (n + 32) else c.

Fixpoint lowercase (s : string) : string :=
  match s with
  | EmptyString => EmptyString
  | String c rest => String (lower c) (lowercase rest)
  end.

(** A segment of a route path that starts with a colon names a
    parameter. *)
Definition is_param (segment : string) : bool :=
  match segment with
  | String c _ => bool_decide (String c EmptyString = ":")
  | EmptyString => false
  end.

(** Express matches a route path against a request path segment by
    segment: a literal segment whatever the case of its letters, a
    parameter against any non-empty segment, and one slash more at the
    end of the request path is allowed.  The result holds the segments the
    parameters matched. *)
Fixpoint match_segments (pattern path : list string) : option (list string) :=
  match pattern, path with
  | [], [] => Some []
  | [], [last] => if bool_decide (last = "") then Some [] else None
  | p :: pattern', s :: path' =>
      if is_param p then
        if bool_decide (s = "") then None
        else cons s <$> match_segments pattern' path'
      else if bool_decide (lowercase p = lowercase s) then match_segments pattern' path'
      else None
  | _, _ => None
  end.

(** A route registered for [GET] serves [HEAD] too. *)
Definition method_matches (route request : Method) : bool :=
  bool_decide (route = request)
  || (bool_decide (route = GET) && bool_decide (request = HEAD)).

Fixpoint first_match (m : Method) (path : list string)
    (routes : list (Method * string * Route)) : option (Route * list string) :=
  match routes with
  | [] => None
  | (route_method, route_path, route) :: rest =>
      if method_matches route_method m then
        match match_segments (segments route_path) path with
        | Some captures => Some (route, captures)
        | None => first_match m path rest
        end
      else first_match m path rest
  end.

(** The handler that serves a request, by its method and the path of its
    URL (without the query), with the parameters of the path; [None] when
    no registered route matches and the request is left to the framework,
    which answers 404. *)
Definition handler_for (m : Method) (path : string) : option (Route * list string) :=
  first_match m (segments path) registered.

End Router.

(** ** Requests in flight *)

Module EventLoop.

Import Relay.

(** A request to [POST /api/chat] is in one of three stages: arrived and
    not yet handled (with what the SDK will do if this request has to
    create the chat object), suspended at its [await], or answered. *)
Inductive Task : Type :=
| Arrived (b : ChatBody) (io : InitOutcome)
| Awaiting (p : Pending)
| Responded (r : Response).

Record System : Type := {
  server : Server;
  tasks : list Task
}.

Definition begun (b : ChatBody) (io : InitOutcome) (st : Server) : Task :=
  match (chat_begin b io st).2 with
  | inl r => Responded r
  | inr p => Awaiting p
  end.

(** One turn of the event loop.  JavaScript runs a handler without
    interruption until it reaches an [await]: the handler of
    [POST /api/chat] has no [await] before
    [await Promise.race([chatPromise, timeoutPromise])], so everything up
    to the call of [sendMessage] is one turn ([chat_begin]) and the rest
    another ([chat_end]).  Any request that can make a turn may be the
    next one. *)
Inductive step (NODE_ENV : option string) : System → System → Prop :=
| step_begin s i b io :
    tasks s !! i = Some (Arrived b io) →
    step NODE_ENV s
      {| server := (chat_begin b io (server s)).1;
         tasks := <[i := begun b io (server s)]> (tasks s) |}
| step_end s i p o now :
    tasks s !! i = Some (Awaiting p) →
    step NODE_ENV s
      {| server := server s;
         tasks := <[i := Responded (chat_end NODE_ENV now p o)]> (tasks s) |}.

(** The requests [reqs] have all arrived and none has been handled. *)
Definition arrivals (reqs : list (ChatBody * InitOutcome)) (st : Server) : System :=
  {| server := st; tasks := (λ q, Arrived q.1 q.2) <$> reqs |}.





End EventLoop.

(** ** The statements of the specification that the server does not meet *)

Module Claimed.

Import Relay.

(** The listing operation as the specification has it: a route of the
    service serves [GET /api/sessions]. *)
Definition sessions_route : Prop :=
  is_Some (Router.handler_for Router.GET "/api/sessions").

(** The response of the clear operation as the specification has it:
    200 with a [message] and the [sessionId]. *)
Definition clear_response (sessionId : string) (r : Response) : Prop :=
  status r = 200%Z ∧
  is_Some (field "message" (body r)) ∧
  field "sessionId" (body r) = Some (VString sessionId).

(** Failure details as the specification has them: a failure response
    sent by a server in production has no [details]. *)
Definition details_suppressed (NODE_ENV : option string) (r : Response) : Prop :=
  status r ≠ 200%Z → NODE_ENV = Some "production" → field "details" (body r) = None.

End Claimed.

(** ** The client of the API ([ChatbotClient]) *)

Module Client.

Import Relay.

(** The fields of a [ChatbotClient]. *)
Record ChatbotClient : Type := {
  baseUrl : string;
  sessionId : string;
  userType : string
}.

(** [generateSessionId()]: [now] is [Date.now()] and [random] is
    [Math.random().toString(36).substr(2, 9)]. *)
Definition generateSessionId (now : Z) (random : string) : string :=
  "session_" +:+ pretty now +:+ "_" +:+ random.

(** [new ChatbotClient(baseUrl)]; [None] is a call without argument. *)
Definition construct (baseUrl : option string) (now : Z) (random : string)
  : ChatbotClient :=
  {| baseUrl := default "http://localhost:8000" baseUrl;
     sessionId := generateSessionId now random;
     userType := "general" |}.

Definition validTypes : list string := ["aspiring"; "existing"; "general"].

(** [setUserType(type)] *)
Definition setUserType (type : JsValue) (c : ChatbotClient) : ChatbotClient :=
  {| baseUrl := baseUrl c;
     sessionId := sessionId c;
     userType := if array_includes validTypes type then toString type else "general" |}.

(** An error object: its [name] and its [message]. *)
Record Error : Type := {
  name : string;
  message : string
}.

(** [new Error(message)] *)
Definition new_Error (message : string) : Error :=
  {| name := "Error"; message := message |}.

(** What [response.json()] finds in a body: the JSON [null] (with the text
    of the [TypeError] the engine raises when a property of [null] is
    read), an object, or any other JSON value. *)
Inductive Parsed : Type :=
| PNull (typeError : string)
| PObject (props : list (string * JsValue))
| POther (v : JsValue).

(** A response as [fetch] delivers it; [json] is the outcome of
    [response.json()], the text of the [SyntaxError] when the body is not
    JSON. *)
Record HttpResponse : Type := {
  status : Z;
  statusText : string;
  json : string + Parsed
}.

(** [response.ok] *)
Definition ok (r : HttpResponse) : bool :=
  bool_decide (200 ≤ status r ≤ 299)%Z.

(** How a call of [fetch] ends: with a response, or rejected (the network
    failed, or the request was aborted: an error named "AbortError"). *)
Inductive FetchOutcome : Type :=
| Responds (r : HttpResponse)
| Fails (e : Error).

(** The options of [sendMessage]; [onProgress] tells whether a callback
    was given. *)
Record Options : Type := {
  timeout : Z;
  retries : Z;
  onProgress : bool
}.

Definition default_options : Options :=
  {| timeout := 35000; retries := 2; onProgress := false |}.

(** What the client does that can be observed. *)
Inductive Event : Type :=
| Progress (text : string)
| Post (url : string) (body : ChatBody)
| Wait (ms : Z)
| Delete (url : string)
| Get (url : string).

(** How an [async] method ends. *)
Inductive Result : Type :=
| Returns (data : Parsed)
| ReturnsUndefined
| Throws (e : Error).

(** [requestData] of [sendMessage] *)
Definition requestData (c : ChatbotClient) (message : JsValue) : ChatBody :=
  {| Relay.message := VString (trim (string_of message));
     Relay.userType := VString (userType c);
     Relay.sessionId := VString (sessionId c) |}.

(** The error of [if (!response.ok) { ... throw new Error(...) }]:
    [errorData.error || `HTTP ${response.status}: ${response.statusText}`],
    where [errorData] is the parsed body, or [{}] when it is not JSON. *)
Definition http_error (r : HttpResponse) : Error :=
  let fallback := "HTTP " +:+ pretty (status r) +:+ ": " +:+ statusText r in
  match json r with
  | inr (PNull typeError) => {| name := "TypeError"; message := typeError |}
  | inr (PObject props) =>
      let e := default VUndefined (field "error" props) in
      new_Error (if Js.not e then fallback else toString e)
  | inr (POther _) | inl _ => new_Error fallback
  end.

(** The body of the [try] of one attempt, after [fetch]: the data, or the
    error that reaches the [catch]. *)
Definition attempt_outcome (o : FetchOutcome) : Parsed + Error :=
  match o with
  | Fails e => inr e
  | Responds r =>
      if ok r then
        match json r with
        | inl syntaxError => inr {| name := "SyntaxError"; message := syntaxError |}
        | inr data => inl data
        end
      else inr (http_error r)
  end.

Definition progress (opts : Options) (text : string) : list Event :=
  if onProgress opts then [Progress text] else [].

(** The retry loop of [sendMessage] from [attempt] on; [remaining] is the
    number of iterations the loop condition [attempt <= retries + 1] still
    allows, and [outcomes n] is how the [fetch] of attempt [n] ends. *)
Fixpoint attempts (c : ChatbotClient) (opts : Options) (body : ChatBody)
    (outcomes : nat → FetchOutcome) (remaining attempt : nat)
  : list Event * Result :=
  match remaining with
  | 0 => ([], ReturnsUndefined)
  | S remaining' =>
      let tried :=
        progress opts ("Sending message... (attempt " +:+ pretty attempt +:+ ")")
        ++ [Post (baseUrl c +:+ "/api/chat") body] in
      match attempt_outcome (outcomes attempt) with
      | inl data => (tried ++ progress opts "Message sent successfully", Returns data)
      | inr error =>
          if bool_decide (name error = "AbortError") then
            (tried, Throws (new_Error "Request timed out. Please try again."))
          else if includes "401" (message error) || includes "Invalid API" (message error) then
            (tried, Throws (new_Error "Authentication error. Please check API configuration."))
          else if bool_decide (Z.of_nat attempt = retries opts + 1)%Z then
            (tried, Throws error)
          else
            let rest := attempts c opts body outcomes remaining' (S attempt) in
            (tried ++ [Wait (2 ^ (Z.of_nat attempt - 1) * 1000)] ++ rest.1, rest.2)
      end
  end.

(** [sendMessage(message, options)] *)
Definition sendMessage (c : ChatbotClient) (message : JsValue) (opts : Options)
    (outcomes : nat → FetchOutcome) : list Event * Result :=
  if message_rejected message then
    ([], Throws (new_Error "Message is required and must be a non-empty string"))
  else
    attempts c opts (requestData c message) outcomes (Z.to_nat (retries opts + 1)) 1.

(** [clearSession()]: the client afterwards, the value returned and the
    request made; [now] and [random] feed [generateSessionId]. *)
Definition clearSession (c : ChatbotClient) (o : FetchOutcome) (now : Z)
    (random : string) : ChatbotClient * bool * list Event :=
  let request :=
    [Delete (baseUrl c +:+ "/api/chat/" +:+ sessionId c +:+ "?userType=" +:+ userType c)] in
  match o with
  | Responds r =>
      if ok r then
        ({| baseUrl := baseUrl c;
            sessionId := generateSessionId now random;
            userType := userType c |}, true, request)
      else (c, false, request)
  | Fails _ => (c, false, request)
  end.

(** [checkHealth()]: the parsed body, or [None] for [null]. *)
Definition checkHealth (c : ChatbotClient) (o : FetchOutcome)
  : option Parsed * list Event :=
  let request := [Get (baseUrl c +:+ "/api/health")] in
  match o with
  | Responds r =>
      if ok r then
        match json r with
        | inr data => (Some data, request)
        | inl _ => (None, request)
        end
      else (None, request)
  | Fails _ => (None, request)
  end.

(** The clients the constructor and the methods produce. *)
Inductive built : ChatbotClient → Prop :=
| built_construct baseUrl now random : built (construct baseUrl now random)
| built_setUserType type c : built c → built (setUserType type c)
| built_clearSession c o now random :
    built c → built (clearSession c o now random).1.1.

(** The requests a run made, and the pauses it took. *)
Definition posts (events : list Event) : list ChatBody :=
  omap (λ e, match e with Post _ b => Some b | _ => None end) events.

Definition waits (events : list Event) : list Z :=
  omap (λ e, match e with Wait ms => Some ms | _ => None end) events.

(** An error after which the loop tries again, if an attempt is left. *)
Definition retried (e : Error) : bool :=
  negb (bool_decide (name e = "AbortError"))
  && negb (includes "401" (message e) || includes "Invalid API" (message e)).

(** A response of the server as [fetch] delivers it to the client:
    [res.json] sent the body as a JSON object; [statusText] is the reason
    phrase of the status line. *)
Definition delivered (r : Response) (statusText : string) : HttpResponse :=
  {| status := Relay.status r; statusText := statusText;
     json := inr (PObject (body r)) |}.

(** The pauses before the attempts after [first], [count] of them: before
    attempt [a + 1] the loop waits [Math.pow(2, a - 1) * 1000]
    milliseconds. *)
Definition pauses (first count : nat) : list Z :=
  (λ a, 2 ^ (Z.of_nat a - 1) * 1000)%Z <$> seq first count.

(** How [sendMessage] ends at the attempt it stops at. *)
Definition settled (o : Parsed + Error) : Result :=
  match o with
  | inl data => Returns data
  | inr e =>
      if bool_decide (name e = "AbortError") then
        Throws (new_Error "Request timed out. Please try again.")
      else if includes "401" (message e) || includes "Invalid API" (message e) then
        Throws (new_Error "Authentication error. Please check API configuration.")
      else Throws e
  end.

(** An attempt after which the loop goes on if it may. *)
Definition goes_on (o : Parsed + Error) : Prop :=
  ∃ e, o = inr e ∧ retried e = true.

End Client.

(** ** Further notions about the server state *)

Module Notions.

Import Relay.

(** The body of a request with the defaults and the user type coercion of
    [POST /api/chat] already applied. *)
Definition normalised (b : ChatBody) : ChatBody :=
  {| message := message b;
     userType := VString (selectedUserType (or_default (userType b) (VString "general")));
     sessionId := or_default (sessionId b) (VString "default") |}.

(** Two chat objects that differ in their log of sent texts at most. *)
Definition same_chat (c c' : ChatSession) : Prop :=
  model c' = model c ∧
  systemInstruction c' = systemInstruction c ∧
  history c' = history c ∧
  generationConfig c' = generationConfig c.

(** Every text sent to the model is non-empty and has no white space at
    either end. *)
Definition sent_trimmed (st : Server) : Prop :=
  ∀ i c t, chats st !! i = Some c → t ∈ sent c → t ≠ "" ∧ trim t = t.

(** No two session keys refer to the same chat object. *)
Definition sessions_apart (st : Server) : Prop :=
  ∀ k1 k2 r,
    chatSessions st !! k1 = Some r → chatSessions st !! k2 = Some r → k1 = k2.

End Notions.

(** * Properties *)

(** ** Facts about the string helpers *)

Section StringFacts.

Lemma startsWith_true_iff (needle hay : string) :
  startsWith needle hay = true ↔ ∃ post, hay = needle +:+ post.
Proof.
  revert hay. induction needle as [|a n IH]; intros hay; simpl.
  - split; [intros _; by exists hay | done].
  - destruct hay as [|b h].
    + split; [done | intros [post Hp]; discriminate].
    + rewrite andb_true_iff, bool_decide_eq_true, IH. split.
      * intros [-> [post ->]]. by exists post.
      * intros [post Hp]. injection Hp as -> ->. split; [done | by exists post].
Qed.

Lemma includes_true_iff (needle hay : string) :
  includes needle hay = true ↔ occurs_in needle hay.
Proof.
  unfold occurs_in. induction hay as [|b h IH].
  - cbn [includes]. rewrite orb_false_r, startsWith_true_iff. split.
    + intros [post Hp]. by exists "", post.
    + intros [pre [post Hp]]. destruct pre; [by exists post | discriminate].
  - cbn [includes]. rewrite orb_true_iff, startsWith_true_iff, IH. split.
    + intros [[post Hp] | [pre [post Hp]]].
      * by exists "", post.
      * exists (String b pre), post. simpl. by rewrite Hp.
    + intros [pre [post Hp]]. destruct pre as [|c pre].
      * left. by exists post.
      * right. simpl in Hp. injection Hp as -> ->. by exists pre, post.
Qed.

Lemma length_zero_iff (s : string) : String.length s = 0 ↔ s = "".
Proof. destruct s; simpl; split; (done || lia). Qed.

Lemma trimEnd_empty_iff (s : string) : trimEnd s = "" ↔ all_white_space s = true.
Proof.
  induction s as [|c t IH]; simpl; [done|].
  destruct (trimEnd t) as [|c' t'] eqn:Ht.
  - destruct (is_white_space c); simpl; [by rewrite <- IH | done].
  - rewrite andb_true_iff. split; [done|]. intros [_ Hall].
    apply IH in Hall. discriminate Hall.
Qed.

Lemma trimStart_cases (s : string) :
  (trimStart s = "" ∧ all_white_space s = true) ∨
  (∃ c t, trimStart s = String c t ∧ is_white_space c = false
          ∧ all_white_space s = false).
Proof.
  induction s as [|c t IH]; simpl; [by left|].
  destruct (is_white_space c) eqn:Hc; simpl; [exact IH|].
  right. by exists c, t.
Qed.

(** A string is empty once trimmed exactly when it holds white space
    only. *)
Lemma trim_empty_iff (s : string) : trim s = "" ↔ all_white_space s = true.
Proof.
  unfold trim.
  destruct (trimStart_cases s) as [[-> ->] | (c & t & -> & Hc & ->)]; [done|].
  split; [|done]. simpl. rewrite Hc. by destruct (trimEnd t).
Qed.

Example trim_inner_space_kept :
  trim (String (Ascii.ascii_of_nat 9) "  How do I start?  ") = "How do I start?".
Proof. reflexivity. Qed.

Example includes_is_case_sensitive :
  includes "quota" "You exceeded your current quota" = true ∧
  includes "quota" "Quota exceeded" = false ∧
  includes "API key" "API key not valid" = true.
Proof. by repeat split. Qed.

End StringFacts.

(** ** The cases of the handler of [POST /api/chat] *)

Section ChatCases.

Import Relay.

Lemma message_rejected_true_iff (m : JsValue) :
  message_rejected m = true ↔ absent_or_blank m.
Proof.
  unfold message_rejected, absent_or_blank. split.
  - destruct m as [| |b|n|s|o]; simpl; intros H;
      try (right; left; discriminate).
    right; right. exists s. split; [done|].
    rewrite orb_false_r, orb_true_iff, !bool_decide_eq_true in H.
    destruct H as [-> | H]; [done | by apply length_zero_iff].
  - intros [-> | [H | [s [-> Hs]]]]; [done | |].
    + destruct m as [| |b|n|s|o]; simpl in *; try done;
        by rewrite ?orb_true_r.
    + simpl. rewrite Hs. simpl. by rewrite orb_true_r.
Qed.

Lemma message_accepted_string (m : JsValue) :
  message_rejected m = false → ∃ s, m = VString s ∧ trim s ≠ "".
Proof.
  intros H. apply not_true_iff_false in H.
  destruct m as [| |b|n|s|o];
    try (exfalso; apply H, message_rejected_true_iff; right; left; discriminate).
  exists s. split; [done|]. intros Hs.
  apply H, message_rejected_true_iff. right; right. by exists s.
Qed.

Variables (b : ChatBody) (io : InitOutcome) (st : Server).

Lemma chat_begin_rejected :
  message_rejected (message b) = true →
  chat_begin b io st = (st, inl validation_error).
Proof. intros H. unfold chat_begin. by rewrite H. Qed.

Lemma chat_begin_reuse (r : nat) :
  message_rejected (message b) = false →
  chatSessions st !! chat_key b = Some r →
  chat_begin b io st = sending b (chat_key b) r (chats st) (chatSessions st).
Proof.
  intros Hm Hk. unfold chat_begin, chat_key in *. by rewrite Hm, Hk.
Qed.

Lemma chat_begin_create :
  message_rejected (message b) = false →
  chatSessions st !! chat_key b = None →
  io = InitOk →
  chat_begin b io st =
    sending b (chat_key b) (length (chats st))
      (chats st ++ [startChat (instructions
         (selectedUserType (or_default (userType b) (VString "general"))))])
      (<[chat_key b := length (chats st)]> (chatSessions st)).
Proof.
  intros Hm Hk ->. unfold chat_begin, chat_key in *. by rewrite Hm, Hk.
Qed.

Lemma chat_begin_init_fails :
  message_rejected (message b) = false →
  chatSessions st !! chat_key b = None →
  io ≠ InitOk →
  chat_begin b io st = (st, inl model_init_error).
Proof.
  intros Hm Hk Hio. unfold chat_begin, chat_key in *. rewrite Hm, Hk.
  by destruct io.
Qed.

End ChatCases.

(** ** Validation, initialisation and send failures *)

Section Failures.

Import Relay.

(** A request whose message passes validation reaches the send step when
    its session has a chat object or one can be created. *)
Lemma post_chat_sends NODE_ENV now b io o st :
  message_rejected (message b) = false →
  is_Some (chatSessions st !! chat_key b) ∨ io = InitOk →
  ∃ st' p, chat_begin b io st = (st', inr p) ∧
           post_chat NODE_ENV now b io o st = (st', chat_end NODE_ENV now p o).
Proof.
  intros Hm Hk. unfold post_chat.
  destruct (chatSessions st !! chat_key b) as [r|] eqn:Hr.
  - rewrite (chat_begin_reuse b io st r Hm Hr). unfold sending. eauto.
  - destruct Hk as [[r Hk] | Hio]; [done|].
    rewrite (chat_begin_create b io st Hm Hr Hio). unfold sending. eauto.
Qed.

Lemma statusCode_cases (m : string) :
  (m = "Request timeout" ∧ statusCode m = 408%Z) ∨
  (m ≠ "Request timeout" ∧ occurs_in "API key" m ∧ statusCode m = 401%Z) ∨
  (m ≠ "Request timeout" ∧ ¬ occurs_in "API key" m ∧ occurs_in "quota" m
     ∧ statusCode m = 429%Z) ∨
  (m ≠ "Request timeout" ∧ ¬ occurs_in "API key" m ∧ ¬ occurs_in "quota" m
     ∧ statusCode m = 500%Z).
Proof.
  unfold statusCode. case_bool_decide as Ht; [by left|]. right.
  destruct (includes "API key" m) eqn:Hk.
  { left. by rewrite <- includes_true_iff. }
  right. assert (¬ occurs_in "API key" m) as Hnk.
  { rewrite <- includes_true_iff. congruence. }
  destruct (includes "quota" m) eqn:Hq.
  { left. by rewrite <- (includes_true_iff "quota"). }
  right. repeat split; try done.
  rewrite <- includes_true_iff. congruence.
Qed.

End Failures.

Import Relay.

Example statusCode_precedence :
  statusCode "Request timeout" = 408%Z ∧
  statusCode "API key quota exhausted" = 401%Z ∧
  statusCode "quota exceeded" = 429%Z ∧
  statusCode "fetch failed" = 500%Z.
Proof. by repeat split. Qed.

Example chat_key_defaults :
  chat_key {| message := VString "hi"; userType := VUndefined; sessionId := VUndefined |}
  = "general_default" ∧
  chat_key {| message := VString "hi"; userType := VString "investor"; sessionId := VNull |}
  = "general_null" ∧
  chat_key {| message := VString "hi"; userType := VString "existing"; sessionId := VNumber 42 |}
  = "existing_42".
Proof. by repeat split. Qed.

Example post_chat_success :
  (post_chat None "2024-01-01T12:00:00.000Z"
     {| message := VString "How do I start a bakery?"; userType := VString "aspiring";
        sessionId := VString "s1" |}
     InitOk (Replied " Start small. ") start).2
  = {| status := 200;
       body := [("reply", VString "Start small.");
                ("userType", VString "aspiring");
                ("sessionId", VString "s1");
                ("success", VBool true);
                ("timestamp", VString "2024-01-01T12:00:00.000Z")] |}.
Proof. reflexivity. Qed.

(** C3: a request to [POST /api/chat] whose message is absent, is not a
    string, or is empty once trimmed is answered 400 with the validation
    error, and the server state is the one before the request: no chat
    object was asked of the SDK, no [sendMessage] was called, and the
    session table has the entries it had. *)
Theorem post_chat_validation_error NODE_ENV now b io o st :
  absent_or_blank (message b) →
  post_chat NODE_ENV now b io o st = (st, validation_error).
Proof.
  intros H. apply message_rejected_true_iff in H.
  unfold post_chat. by rewrite (chat_begin_rejected b io st H).
Qed.

Lemma post_chat_validation_error_witness :
  absent_or_blank (VString "  ") ∧
  post_chat None "2024-01-01T12:00:00.000Z"
    {| message := VString "  "; userType := VString "aspiring"; sessionId := VString "s1" |}
    InitOk (Replied "hello") start
  = (start, validation_error).
Proof.
  assert (absent_or_blank (VString "  ")) as H.
  { right; right. exists "  ". split; reflexivity. }
  split; [exact H|].
  exact (post_chat_validation_error None "2024-01-01T12:00:00.000Z"
    {| message := VString "  "; userType := VString "aspiring"; sessionId := VString "s1" |}
    InitOk (Replied "hello") start H).
Defined.

(** The instruction a new chat object is bound to: the text of the
    [instructions] table for the user type, the general one when the user
    type is none of the three. *)
Lemma instructions_selected (u : JsValue) :
  instructions (selectedUserType (or_default u (VString "general")))
  = Some (if decide (u = VString "aspiring") then instructions_aspiring
          else if decide (u = VString "existing") then instructions_existing
          else instructions_general).
Proof.
  unfold selectedUserType, array_includes, validUserTypes.
  destruct u as [| |x|n|s|str]; simpl; try done.
  case_bool_decide as Hs.
  - repeat case_decide; simplify_eq; try done.
    set_unfold. destruct Hs as [-> | [-> | [-> | []]]]; done.
  - repeat case_decide; simplify_eq; try done; set_solver.
Qed.

(** The server state after [POST /api/chat]: unchanged (validation or
    initialisation failed), or the message logged on the chat object of
    the key, or a new chat object stored under the key with the message
    logged on it. *)
Lemma post_chat_state NODE_ENV now b io o st :
  let st' := (post_chat NODE_ENV now b io o st).1 in
  let text := trim (string_of (message b)) in
  st' = st ∨
  (∃ r, chatSessions st !! chat_key b = Some r ∧
        st' = {| chats := alter (sendMessage text) r (chats st);
                 chatSessions := chatSessions st |}) ∨
  (chatSessions st !! chat_key b = None ∧
   st' = {| chats := chats st
                     ++ [sendMessage text
                           (startChat (instructions
                              (selectedUserType
                                 (or_default (userType b) (VString "general")))))];
            chatSessions := <[chat_key b := length (chats st)]> (chatSessions st) |}).
Proof.
  intros st' text. unfold st', post_chat.
  destruct (message_rejected (message b)) eqn:Hm.
  { rewrite (chat_begin_rejected b io st Hm). by left. }
  destruct (chatSessions st !! chat_key b) as [r|] eqn:Hr.
  { rewrite (chat_begin_reuse b io st r Hm Hr). right; left. by exists r. }
  assert (io = InitOk ∨ io ≠ InitOk) as [Hio|Hio] by (destruct io; auto).
  - rewrite (chat_begin_create b io st Hm Hr Hio). right; right. split; [done|].
    unfold sending. simpl. f_equal. rewrite alter_app_r_alt by lia.
    by replace (length (chats st) - length (chats st)) with 0 by lia.
  - rewrite (chat_begin_init_fails b io st Hm Hr Hio). by left.
Qed.

Lemma sendMessage_initialised (text : string) (c : ChatSession) :
  initialised c → initialised (sendMessage text c).
Proof. by intros (? & ? & ? & ?). Qed.

(** The session table never refers to anything but an initialised chat
    object. *)
Lemma reachable_entries_initialised (st : Server) :
  reachable st → entries_initialised st.
Proof.
  induction 1 as [|NODE_ENV now b io o st _ IH|sid ut st _ IH|st _ IH];
    intros k r Hk; try (by eapply IH).
  - done.
  - destruct (post_chat_state NODE_ENV now b io o st)
      as [Heq | [(r0 & Hr0 & Heq) | (Hnone & Heq)]];
      rewrite Heq in Hk |- *; clear Heq; simpl in *.
    + by eapply IH.
    + destruct (IH k r Hk) as (c & Hc & Hinit).
      rewrite list_lookup_alter. case_decide as Hsame.
      * subst r0. rewrite Hc. simpl. eauto using sendMessage_initialised.
      * eauto.
    + destruct (decide (k = chat_key b)) as [->|Hne].
      * rewrite lookup_insert_eq in Hk. injection Hk as <-.
        rewrite lookup_app_r, Nat.sub_diag by lia. simpl. eexists. split; [done|].
        apply sendMessage_initialised. split; [done|]. split; [|done].
        simpl. rewrite instructions_selected. eauto.
      * rewrite lookup_insert_ne in Hk by done.
        destruct (IH k r Hk) as (c & Hc & Hinit).
        exists c. split; [|done]. by rewrite lookup_app_l by (by eapply lookup_lt_Some).
  - simpl in Hk. apply lookup_delete_Some in Hk as [_ Hk]. by eapply IH.
Qed.

(** C6: when the session of a valid request has no chat object and the SDK
    fails to create one, the answer is 500 "Failed to initialize AI model"
    and the server state is the one before the request: the session table
    received no entry.  On a server that has only run its routes every
    entry of the table, before and after such a request, refers to a chat
    object that was initialised. *)
Theorem post_chat_model_init_failure NODE_ENV now b io o st :
  message_rejected (message b) = false →
  chatSessions st !! chat_key b = None →
  io ≠ InitOk →
  post_chat NODE_ENV now b io o st = (st, model_init_error) ∧
  chatSessions (post_chat NODE_ENV now b io o st).1 !! chat_key b = None ∧
  (reachable st → entries_initialised (post_chat NODE_ENV now b io o st).1).
Proof.
  intros Hm Hk Hio.
  assert (post_chat NODE_ENV now b io o st = (st, model_init_error)) as Heq.
  { unfold post_chat. by rewrite (chat_begin_init_fails b io st Hm Hk Hio). }
  rewrite Heq. split; [done|]. split; [done|].
  apply reachable_entries_initialised.
Qed.

Lemma post_chat_model_init_failure_witness :
  let b := {| message := VString "How do I start a bakery?"; userType := VString "aspiring";
              sessionId := VString "s1" |} in
  post_chat (Some "development") "2024-01-01T12:00:00.000Z" b
    (StartChatThrows "model not found") (Replied "hello") start
  = (start, model_init_error) ∧
  entries_initialised
    (post_chat (Some "development") "2024-01-01T12:00:00.000Z" b
       (StartChatThrows "model not found") (Replied "hello") start).1.
Proof.
  intros b.
  destruct (post_chat_model_init_failure (Some "development") "2024-01-01T12:00:00.000Z" b
              (StartChatThrows "model not found") (Replied "hello") start
              eq_refl eq_refl ltac:(discriminate)) as (Heq & _ & Hinit).
  split; [exact Heq | exact (Hinit reach_start)].
Defined.

(** C4: a failure of the send step is answered with a status chosen from
    the text of the error alone: 408 for the text "Request timeout" (the
    text of the server's own 30 second timer), else 401 when "API key"
    occurs in it, else 429 when "quota" occurs in it, else 500. *)
Theorem post_chat_send_failure_status NODE_ENV now b io o st m :
  message_rejected (message b) = false →
  is_Some (chatSessions st !! chat_key b) ∨ io = InitOk →
  caught o = Some m →
  let r := (post_chat NODE_ENV now b io o st).2 in
  status r = statusCode m ∧
  (o = TimerFirst → status r = 408%Z) ∧
  ((m = "Request timeout" ∧ status r = 408%Z) ∨
   (m ≠ "Request timeout" ∧ occurs_in "API key" m ∧ status r = 401%Z) ∨
   (m ≠ "Request timeout" ∧ ¬ occurs_in "API key" m ∧ occurs_in "quota" m
      ∧ status r = 429%Z) ∨
   (m ≠ "Request timeout" ∧ ¬ occurs_in "API key" m ∧ ¬ occurs_in "quota" m
      ∧ status r = 500%Z)).
Proof.
  intros Hm Hk Hc r.
  destruct (post_chat_sends NODE_ENV now b io o st Hm Hk) as (st' & p & _ & Hp).
  assert (status r = statusCode m) as Hs.
  { unfold r. rewrite Hp. destruct o; simpl in *; congruence. }
  split; [done|]. split.
  - intros ->. simpl in Hc. injection Hc as <-. by rewrite Hs.
  - rewrite Hs. apply statusCode_cases.
Qed.

Lemma post_chat_send_failure_status_witness :
  let r := (post_chat None "2024-01-01T12:00:00.000Z"
              {| message := VString "What about funding?"; userType := VString "existing";
                 sessionId := VString "s1" |}
              InitOk (Threw "You exceeded your current quota") start).2 in
  status r = 429%Z.
Proof.
  intros r.
  destruct (post_chat_send_failure_status None "2024-01-01T12:00:00.000Z"
              {| message := VString "What about funding?"; userType := VString "existing";
                 sessionId := VString "s1" |}
              InitOk (Threw "You exceeded your current quota") start
              "You exceeded your current quota"
              eq_refl (or_intror eq_refl) eq_refl) as [Hs _].
  exact Hs.
Defined.

(** ** What a failure response discloses *)

(** C8, as the specification states it, fails: in production the response
    to a failed initialisation still has a [details] property. *)
Lemma init_failure_details_in_production :
  ¬ Claimed.details_suppressed (Some "production")
      (post_chat (Some "production") "2024-01-01T12:00:00.000Z"
         {| message := VString "How do I start a bakery?"; userType := VString "aspiring";
            sessionId := VString "s1" |}
         (GetModelThrows "API key not valid") (Replied "hello") start).2.
Proof.
  unfold Claimed.details_suppressed. intros H.
  specialize (H ltac:(discriminate) eq_refl). discriminate H.
Qed.

(** C8, amended: the text of the error caught at the request boundary is
    sent as [details] exactly when [NODE_ENV] is "development", and
    otherwise that response has no [details]; the response to a failed
    initialisation carries the same fixed [details] text in every
    configuration, whatever the error was; the validation error has no
    [details]. *)
Theorem failure_details NODE_ENV now b io o st :
  let r := (post_chat NODE_ENV now b io o st).2 in
  (absent_or_blank (message b) → field "details" (body r) = None) ∧
  (message_rejected (message b) = false →
   chatSessions st !! chat_key b = None →
   io ≠ InitOk →
   field "details" (body r)
   = Some (VString "Please check API key and model configuration")) ∧
  (∀ m, message_rejected (message b) = false →
        is_Some (chatSessions st !! chat_key b) ∨ io = InitOk →
        caught o = Some m →
        field "details" (body r)
        = if bool_decide (NODE_ENV = Some "development") then Some (VString m) else None).
Proof.
  intros r. split; [|split].
  - intros H. apply message_rejected_true_iff in H.
    unfold r, post_chat. by rewrite (chat_begin_rejected b io st H).
  - intros Hm Hk Hio. unfold r, post_chat.
    by rewrite (chat_begin_init_fails b io st Hm Hk Hio).
  - intros m Hm Hk Hc.
    destruct (post_chat_sends NODE_ENV now b io o st Hm Hk) as (st' & p & _ & Hp).
    unfold r. rewrite Hp.
    destruct o; simpl in Hc; try discriminate; injection Hc as <-;
      unfold chat_end; simpl; by case_bool_decide.
Qed.

Lemma failure_details_witness :
  let b := {| message := VString "What about funding?"; userType := VString "general";
              sessionId := VString "s1" |} in
  let blank := {| message := VNull; userType := VString "general";
                  sessionId := VString "s1" |} in
  let leak := "API key not valid. Please pass a valid API key." in
  field "details" (body (post_chat (Some "development") "t" blank InitOk (Threw leak) start).2)
  = None ∧
  field "details" (body (post_chat (Some "production") "t" b (StartChatThrows leak)
                           (Threw leak) start).2)
  = Some (VString "Please check API key and model configuration") ∧
  field "details" (body (post_chat (Some "development") "t" b InitOk (Threw leak) start).2)
  = Some (VString leak) ∧
  field "details" (body (post_chat (Some "production") "t" b InitOk (Threw leak) start).2)
  = None ∧
  field "details" (body (post_chat None "t" b InitOk (Threw leak) start).2)
  = None.
Proof.
  intros b blank leak. split; [|split; [|split; [|split]]].
  - apply (failure_details (Some "development") "t" blank InitOk (Threw leak) start).
    right; left. discriminate.
  - apply (failure_details (Some "production") "t" b (StartChatThrows leak) (Threw leak) start);
      [reflexivity | reflexivity | discriminate].
  - apply (proj2 (proj2 (failure_details (Some "development") "t" b InitOk (Threw leak) start))
             leak eq_refl (or_intror eq_refl) eq_refl).
  - apply (proj2 (proj2 (failure_details (Some "production") "t" b InitOk (Threw leak) start))
             leak eq_refl (or_intror eq_refl) eq_refl).
  - apply (proj2 (proj2 (failure_details None "t" b InitOk (Threw leak) start))
             leak eq_refl (or_intror eq_refl) eq_refl).
Defined.

(** ** Creation and reuse of the chat object *)

Section CreateReuse.

Variables (NODE_ENV : option string) (now : string).
Variables (b : ChatBody) (io : InitOutcome) (o : SendOutcome) (st : Server).
Hypothesis Hvalid : message_rejected (message b) = false.

Lemma post_chat_reuse (r : nat) :
  chatSessions st !! chat_key b = Some r →
  (post_chat NODE_ENV now b io o st).1
  = {| chats := alter (sendMessage (trim (string_of (message b)))) r (chats st);
       chatSessions := chatSessions st |}.
Proof.
  intros Hk. unfold post_chat.
  by rewrite (chat_begin_reuse b io st r Hvalid Hk).
Qed.

Lemma post_chat_create :
  chatSessions st !! chat_key b = None →
  io = InitOk →
  (post_chat NODE_ENV now b io o st).1
  = {| chats := chats st
                ++ [sendMessage (trim (string_of (message b)))
                      (startChat (instructions
                         (selectedUserType (or_default (userType b) (VString "general")))))];
       chatSessions := <[chat_key b := length (chats st)]> (chatSessions st) |}.
Proof.
  intros Hk Hio. unfold post_chat.
  rewrite (chat_begin_create b io st Hvalid Hk Hio). unfold sending. simpl.
  f_equal. rewrite alter_app_r_alt by lia.
  by replace (length (chats st) - length (chats st)) with 0 by lia.
Qed.

End CreateReuse.

(** Session keys tell the conversations apart: two valid user types with
    two session identifiers that are strings give one key only when they
    are the same pair. *)
Lemma sessionKey_injective (c1 c2 s1 s2 : string) :
  c1 ∈ validUserTypes → c2 ∈ validUserTypes →
  sessionKey c1 (VString s1) = sessionKey c2 (VString s2) →
  c1 = c2 ∧ s1 = s2.
Proof.
  unfold validUserTypes. rewrite !elem_of_cons, !elem_of_nil.
  intros [-> | [-> | [-> | []]]] [-> | [-> | [-> | []]]] Heq;
    cbn in Heq; try discriminate Heq; by simplify_eq.
Qed.

Lemma filter_key_absent {V : Type} (l : list (string * V)) (k : string) :
  k ∉ l.*1 → filter (λ kv, kv.1 = k) l = [].
Proof.
  induction l as [|[k' v'] l IH]; intros Hk; [done|].
  rewrite fmap_cons, not_elem_of_cons in Hk. destruct Hk as [Hne Hk].
  rewrite filter_cons_False; [by apply IH|]. simpl in *. congruence.
Qed.

Lemma filter_key_NoDup {V : Type} (l : list (string * V)) (k : string) (v : V) :
  NoDup l.*1 → (k, v) ∈ l → filter (λ kv, kv.1 = k) l = [(k, v)].
Proof.
  induction l as [|[k' v'] l IH]; intros Hnd Hin.
  - by apply elem_of_nil in Hin.
  - rewrite fmap_cons in Hnd. apply NoDup_cons in Hnd as [Hk' Hnd].
    apply elem_of_cons in Hin as [Heq | Hin].
    + injection Heq as <- <-. rewrite filter_cons_True by done. f_equal.
      by apply filter_key_absent.
    + rewrite filter_cons_False; [by apply IH|]. simpl. intros ->.
      apply Hk'. apply list_elem_of_fmap. by exists (k, v).
Qed.

Lemma entries_of_key (m : gmap string nat) (k : string) (r : nat) :
  m !! k = Some r → filter (λ kv, kv.1 = k) (map_to_list m) = [(k, r)].
Proof.
  intros H. apply filter_key_NoDup.
  - apply NoDup_fst_map_to_list.
  - by apply elem_of_map_to_list.
Qed.

(** C2: when a valid request arrives for a session key that has no entry
    and the SDK creates the chat object, the object is bound to the
    instruction of the (coerced) user type and to the generation settings
    1500 / 0.7 / 0.8 / 40, the session table maps the key to it, and the
    message is sent through it.  The next valid request with the same key
    creates nothing: the table is unchanged and the message goes through
    the same object.  After both the table has exactly one entry for the
    key. *)
Theorem first_call_creates_second_reuses
    NODE_ENV1 now1 b1 o1 NODE_ENV2 now2 b2 io2 o2 st :
  message_rejected (message b1) = false →
  message_rejected (message b2) = false →
  chat_key b2 = chat_key b1 →
  chatSessions st !! chat_key b1 = None →
  let key := chat_key b1 in
  let r := length (chats st) in
  let created :=
    startChat (instructions
      (selectedUserType (or_default (userType b1) (VString "general")))) in
  let st1 := (post_chat NODE_ENV1 now1 b1 InitOk o1 st).1 in
  let st2 := (post_chat NODE_ENV2 now2 b2 io2 o2 st1).1 in
  systemInstruction created
  = Some (if decide (userType b1 = VString "aspiring") then instructions_aspiring
          else if decide (userType b1 = VString "existing") then instructions_existing
          else instructions_general) ∧
  generationConfig created
  = {| maxOutputTokens := 1500;
       temperature := QArith_base.Qmake 7 10;
       topP := QArith_base.Qmake 8 10;
       topK := 40 |} ∧
  chatSessions st1 = <[key := r]> (chatSessions st) ∧
  chats st1 = chats st ++ [sendMessage (trim (string_of (message b1))) created] ∧
  chatSessions st2 = chatSessions st1 ∧
  chats st2 = chats st ++ [sendMessage (trim (string_of (message b2)))
                             (sendMessage (trim (string_of (message b1))) created)] ∧
  filter (λ kv, kv.1 = key) (map_to_list (chatSessions st2)) = [(key, r)] ∧
  (chatSessions st = ∅ → size (chatSessions st2) = 1).
Proof.
  intros Hm1 Hm2 Hkey Hnone key r created st1 st2.
  assert (st1 = {| chats := chats st ++ [sendMessage (trim (string_of (message b1))) created];
                   chatSessions := <[key := r]> (chatSessions st) |}) as Hst1.
  { apply post_chat_create; done. }
  assert (chatSessions st1 !! chat_key b2 = Some r) as Hk2.
  { rewrite Hkey, Hst1. simpl. apply lookup_insert_eq. }
  assert (st2 = {| chats := alter (sendMessage (trim (string_of (message b2)))) r (chats st1);
                   chatSessions := chatSessions st1 |}) as Hst2.
  { apply post_chat_reuse; done. }
  split; [apply instructions_selected|].
  split; [done|].
  split; [by rewrite Hst1|].
  split; [by rewrite Hst1|].
  split; [by rewrite Hst2|].
  split.
  { rewrite Hst2, Hst1. simpl. rewrite alter_app_r_alt by (unfold r; lia).
    by replace (r - length (chats st)) with 0 by (unfold r; lia). }
  split.
  { apply entries_of_key. rewrite Hst2, Hst1. simpl. apply lookup_insert_eq. }
  intros Hempty. rewrite Hst2, Hst1. simpl. rewrite Hempty, insert_empty.
  apply map_size_singleton.
Qed.

Lemma first_call_creates_second_reuses_witness :
  let b1 := {| message := VString "How do I start a bakery?";
               userType := VString "aspiring"; sessionId := VString "s1" |} in
  let b2 := {| message := VString " What about funding? ";
               userType := VString "aspiring"; sessionId := VString "s1" |} in
  let st1 := (post_chat None "t1" b1 InitOk (Replied "Start small.") start).1 in
  let st2 := (post_chat None "t2" b2 (StartChatThrows "unused") TimerFirst st1).1 in
  chatSessions st2 = chatSessions st1 ∧
  filter (λ kv, kv.1 = "aspiring_s1") (map_to_list (chatSessions st2)) = [("aspiring_s1", 0)] ∧
  size (chatSessions st2) = 1.
Proof.
  intros b1 b2 st1 st2.
  pose proof (first_call_creates_second_reuses
                None "t1" b1 (Replied "Start small.")
                None "t2" b2 (StartChatThrows "unused") TimerFirst start
                eq_refl eq_refl eq_refl eq_refl)
    as (_ & _ & _ & _ & Htable & _ & Hone & Hsize).
  split; [exact Htable|]. split; [exact Hone|]. exact (Hsize eq_refl).
Defined.

(** C5: a request that reaches the send step and fails there (an error
    from the SDK or the timer) leaves the session key in the table, bound
    to the chat object the message was sent through; an entry that was
    there before the request is the same entry after it, the table is
    unchanged and the object has only gained the message in its log.  A
    later valid request for the key sends through that same object
    without creating one. *)
Theorem send_failure_keeps_session NODE_ENV now b io o st m :
  message_rejected (message b) = false →
  is_Some (chatSessions st !! chat_key b) ∨ io = InitOk →
  caught o = Some m →
  let st' := (post_chat NODE_ENV now b io o st).1 in
  status (post_chat NODE_ENV now b io o st).2 = statusCode m ∧
  ∃ r, chatSessions st' !! chat_key b = Some r ∧
       (∀ r0, chatSessions st !! chat_key b = Some r0 →
              r = r0 ∧ chatSessions st' = chatSessions st ∧
              length (chats st') = length (chats st) ∧
              chats st' !! r = sendMessage (trim (string_of (message b))) <$> chats st !! r) ∧
       (∀ NODE_ENV' now' b' io' o',
          message_rejected (message b') = false →
          chat_key b' = chat_key b →
          let st'' := (post_chat NODE_ENV' now' b' io' o' st').1 in
          chatSessions st'' = chatSessions st' ∧
          chats st'' = alter (sendMessage (trim (string_of (message b')))) r (chats st')).
Proof.
  intros Hm Hk Hc st'. split.
  { destruct (post_chat_sends NODE_ENV now b io o st Hm Hk) as (s & p & _ & Hp).
    rewrite Hp. destruct o; simpl in *; congruence. }
  assert (∃ r, chatSessions st' !! chat_key b = Some r ∧
               (∀ r0, chatSessions st !! chat_key b = Some r0 →
                  r = r0 ∧ chatSessions st' = chatSessions st ∧
                  length (chats st') = length (chats st) ∧
                  chats st' !! r = sendMessage (trim (string_of (message b))) <$> chats st !! r))
    as (r & Hr & Hold).
  { destruct (chatSessions st !! chat_key b) as [r0|] eqn:Hr0.
    - exists r0. unfold st'. rewrite (post_chat_reuse NODE_ENV now b io o st Hm r0 Hr0). simpl.
      split; [done|]. intros ? [= <-].
      by rewrite length_alter, list_lookup_alter_eq.
    - destruct Hk as [[? ?] | Hio]; [done|].
      exists (length (chats st)). unfold st'.
      rewrite (post_chat_create NODE_ENV now b io o st Hm Hr0 Hio). simpl.
      split; [apply lookup_insert_eq | done]. }
  exists r. split; [done|]. split; [done|].
  intros NODE_ENV' now' b' io' o' Hm' Hkey st''.
  unfold st''. rewrite (post_chat_reuse NODE_ENV' now' b' io' o' st' Hm' r); [done|].
  by rewrite Hkey.
Qed.

Lemma send_failure_keeps_session_witness :
  let b := {| message := VString "How do I start a bakery?";
              userType := VString "aspiring"; sessionId := VString "s1" |} in
  let st := (post_chat None "t0" b InitOk (Replied "Start small.") start).1 in
  let st' := (post_chat None "t1" b InitOk TimerFirst st).1 in
  status (post_chat None "t1" b InitOk TimerFirst st).2 = 408%Z ∧
  ∃ r, chatSessions st' !! "aspiring_s1" = Some r.
Proof.
  intros b st st'.
  destruct (send_failure_keeps_session None "t1" b InitOk TimerFirst st "Request timeout"
              eq_refl (or_intror eq_refl) eq_refl) as (Hs & r & Hr & _).
  split; [exact Hs|]. exists r. exact Hr.
Defined.

(** ** Clearing a session *)

Section AppendFacts.

Lemma length_append (a c : string) :
  String.length (a +:+ c) = String.length a + String.length c.
Proof. induction a as [|x a IH]; simpl; [done | by rewrite IH]. Qed.

Lemma append_same_length (a a' c c' : string) :
  a +:+ c = a' +:+ c' → String.length a = String.length a' → a = a'.
Proof.
  revert a'. induction a as [|x a IH]; intros [|x' a'] Heq Hlen; simpl in *;
    try done.
  injection Heq as -> Heq. f_equal. apply IH; [done | lia].
Qed.

Lemma append_cancel_r (a a' c : string) : a +:+ c = a' +:+ c → a = a'.
Proof.
  intros Heq. apply (append_same_length a a' c c Heq).
  apply (f_equal String.length) in Heq. rewrite !length_append in Heq. lia.
Qed.

End AppendFacts.

(** C7, as the specification states it, fails: the response of
    [DELETE /api/chat/s1?userType=aspiring] has no [sessionId]. *)
Lemma delete_chat_response_without_sessionId :
  ¬ Claimed.clear_response "s1" (delete_chat "s1" (VString "aspiring") start).2.
Proof. unfold Claimed.clear_response. intros (_ & _ & H). discriminate H. Qed.

(** C7, amended: [DELETE /api/chat/:sessionId] always answers 200 with the
    body [{message: 'Chat session cleared'}], whether or not the key it
    computes has an entry; afterwards the key has no entry, every other
    entry and every chat object is as before, and when the key had no
    entry the server state is unchanged. *)
Theorem delete_chat_idempotent (sessionId : string) (userType : JsValue) (st : Server) :
  let key := delete_key sessionId userType in
  let st' := (delete_chat sessionId userType st).1 in
  (delete_chat sessionId userType st).2
  = {| status := 200; body := [("message", VString "Chat session cleared")] |} ∧
  chatSessions st' !! key = None ∧
  (∀ k, k ≠ key → chatSessions st' !! k = chatSessions st !! k) ∧
  chats st' = chats st ∧
  (chatSessions st !! key = None → st' = st) ∧
  delete_chat sessionId userType st' = (st', (delete_chat sessionId userType st).2).
Proof.
  intros key st'. unfold st', delete_chat. simpl. fold key.
  split; [done|]. split; [apply lookup_delete_eq|].
  split; [intros k Hk; by apply lookup_delete_ne|]. split; [done|]. split.
  - intros Hnone. rewrite (delete_id _ _ Hnone). by destruct st.
  - f_equal. f_equal. apply delete_id, lookup_delete_eq.
Qed.

Lemma delete_chat_idempotent_witness :
  let b := {| message := VString "How do I start a bakery?";
              userType := VString "aspiring"; sessionId := VString "s1" |} in
  let st := (post_chat None "t0" b InitOk (Replied "Start small.") start).1 in
  chatSessions st !! "aspiring_s1" = Some 0 ∧
  chatSessions (delete_chat "s1" (VString "aspiring") st).1 !! "aspiring_s1" = None ∧
  (delete_chat "s1" VUndefined start).1 = start.
Proof.
  intros b st. split; [reflexivity|]. split.
  - apply (delete_chat_idempotent "s1" (VString "aspiring") st).
  - apply (delete_chat_idempotent "s1" VUndefined start). reflexivity.
Defined.

(** C10: the key [DELETE /api/chat/:sessionId] removes is the raw query
    value of [userType] ("aspiring" when the query has none), an underscore
    and the session identifier, while [POST /api/chat] stores under the
    coerced user type ("general" when the body has none or an unknown
    one).  With no user type, or with an unknown one, the two keys of the
    same inputs differ, and the delete leaves the entry the post stored. *)
Theorem delete_key_not_coerced :
  (∀ sid ut st,
     chatSessions (delete_chat sid ut st).1
     = delete (toString (or_default ut (VString "aspiring")) +:+ "_" +:+ sid)
              (chatSessions st)) ∧
  (∀ m sid,
     chat_key {| message := m; userType := VUndefined; sessionId := VString sid |}
     = "general" +:+ "_" +:+ sid ∧
     delete_key sid VUndefined = "aspiring" +:+ "_" +:+ sid) ∧
  (∀ m u sid,
     u ∉ validUserTypes →
     chat_key {| message := m; userType := VString u; sessionId := VString sid |}
     = "general" +:+ "_" +:+ sid ∧
     delete_key sid (VString u) = u +:+ "_" +:+ sid) ∧
  (∀ NODE_ENV now m u sid o st,
     u = VUndefined ∨ (∃ s, u = VString s ∧ s ∉ validUserTypes) →
     let b := {| message := VString m; userType := u; sessionId := VString sid |} in
     message_rejected (VString m) = false →
     delete_key sid u ≠ chat_key b ∧
     is_Some (chatSessions
                (delete_chat sid u (post_chat NODE_ENV now b InitOk o st).1).1
              !! chat_key b)).
Proof.
  split; [done|]. split; [done|].
  assert (∀ m u sid, u ∉ validUserTypes →
            chat_key {| message := m; userType := VString u; sessionId := VString sid |}
            = "general" +:+ "_" +:+ sid ∧
            delete_key sid (VString u) = u +:+ "_" +:+ sid) as Hunknown.
  { intros m u sid Hu. split; [|done].
    unfold chat_key, selectedUserType, array_includes. simpl.
    by rewrite bool_decide_eq_false_2. }
  split; [exact Hunknown|].
  intros NODE_ENV now m u sid o st Hu b Hm.
  assert (delete_key sid u ≠ chat_key b) as Hne.
  { unfold b. destruct Hu as [-> | (s & -> & Hs)].
    - intros Heq. cbn in Heq. discriminate Heq.
    - destruct (Hunknown (VString m) s sid Hs) as [-> ->]. intros Heq.
      apply (append_cancel_r s "general" ("_" +:+ sid)) in Heq. subst s.
      apply Hs. unfold validUserTypes. rewrite !elem_of_cons. by right; right; left. }
  split; [done|].
  assert (is_Some (chatSessions (post_chat NODE_ENV now b InitOk o st).1 !! chat_key b))
    as Hstored.
  { destruct (chatSessions st !! chat_key b) as [r|] eqn:Hr.
    - rewrite (post_chat_reuse NODE_ENV now b InitOk o st Hm r Hr). simpl. by rewrite Hr.
    - rewrite (post_chat_create NODE_ENV now b InitOk o st Hm Hr eq_refl). simpl.
      by rewrite lookup_insert_eq. }
  unfold delete_chat. simpl. by rewrite lookup_delete_ne.
Qed.

Lemma delete_key_not_coerced_witness :
  let b := {| message := VString "How do I start a bakery?";
              userType := VUndefined; sessionId := VString "s1" |} in
  chat_key b = "general_s1" ∧
  delete_key "s1" VUndefined = "aspiring_s1" ∧
  is_Some (chatSessions
             (delete_chat "s1" VUndefined
                (post_chat None "t0" b InitOk (Replied "Start small.") start).1).1
           !! "general_s1").
Proof.
  intros b.
  destruct delete_key_not_coerced as (_ & Habsent & _ & Hleft).
  split; [apply (Habsent (VString "How do I start a bakery?") "s1")|].
  split; [apply (Habsent (VString "How do I start a bakery?") "s1")|].
  apply (Hleft None "t0" "How do I start a bakery?" VUndefined "s1" (Replied "Start small.")
           start (or_introl eq_refl) eq_refl).
Defined.

(** ** The keys of the session table *)

Lemma selectedUserType_valid (u : JsValue) : selectedUserType u ∈ validUserTypes.
Proof.
  unfold selectedUserType, array_includes.
  destruct u as [| |x|n|s|str]; simpl;
    try (unfold validUserTypes; rewrite !elem_of_cons; by right; right; left).
  case_bool_decide; [done|].
  unfold validUserTypes. rewrite !elem_of_cons. by right; right; left.
Qed.

(** The session table after [POST /api/chat]: the one before, or the one
    before with the key of the request bound to a new chat object. *)
Lemma post_chat_table NODE_ENV now b io o st :
  chatSessions (post_chat NODE_ENV now b io o st).1 = chatSessions st ∨
  chatSessions (post_chat NODE_ENV now b io o st).1
  = <[chat_key b := length (chats st)]> (chatSessions st).
Proof.
  unfold post_chat.
  destruct (message_rejected (message b)) eqn:Hm.
  { rewrite (chat_begin_rejected b io st Hm). by left. }
  destruct (chatSessions st !! chat_key b) as [r|] eqn:Hr.
  { rewrite (chat_begin_reuse b io st r Hm Hr). by left. }
  assert (io = InitOk ∨ io ≠ InitOk) as [Hio|Hio] by (destruct io; auto).
  - rewrite (chat_begin_create b io st Hm Hr Hio). by right.
  - rewrite (chat_begin_init_fails b io st Hm Hr Hio). by left.
Qed.

Lemma reachable_keys (st : Server) :
  reachable st →
  ∀ k r, chatSessions st !! k = Some r → Sessions.category_sessionId k.
Proof.
  induction 1 as [|NODE_ENV now b io o st _ IH|sid ut st _ IH|st _ IH];
    intros k r Hk; try (by eapply IH).
  - done.
  - destruct (post_chat_table NODE_ENV now b io o st) as [Ht|Ht];
      rewrite Ht in Hk; [by eapply IH|].
    destruct (decide (k = chat_key b)) as [->|Hne].
    + eexists _, _. split; [apply selectedUserType_valid | reflexivity].
    + rewrite lookup_insert_ne in Hk by done. by eapply IH.
  - simpl in Hk. apply lookup_delete_Some in Hk as [_ Hk]. by eapply IH.
Qed.

(** ** Requests racing for a new session *)

Section Race.

Import EventLoop.

Variables (NODE_ENV : option string) (reqs : list (ChatBody * InitOutcome)).
Variables (key : string) (st0 : Server).

Hypothesis Hreqs :
  ∀ q, q ∈ reqs → message_rejected (message q.1) = false ∧ chat_key q.1 = key.
Hypothesis Hfresh : chatSessions st0 !! key = None.




End Race.

(** One request alone on the event loop is the handler run from request to
    response. *)
Lemma post_chat_runs NODE_ENV now b io o st :
  rtc (EventLoop.step NODE_ENV) (EventLoop.arrivals [(b, io)] st)
    {| EventLoop.server := (post_chat NODE_ENV now b io o st).1;
       EventLoop.tasks := [EventLoop.Responded (post_chat NODE_ENV now b io o st).2] |}.
Proof.
  eapply rtc_l; [apply (EventLoop.step_begin NODE_ENV _ 0 b io); reflexivity|].
  unfold post_chat, EventLoop.begun. simpl.
  destruct (chat_begin b io st) as [st' [r|p]]; simpl; [apply rtc_refl|].
  eapply rtc_l; [|apply rtc_refl].
  apply (EventLoop.step_end NODE_ENV
           {| EventLoop.server := st'; EventLoop.tasks := [EventLoop.Awaiting p] |}
           0 p o now).
  reflexivity.
Qed.



(** * Further properties of the server *)

(** ** Responses *)

Ltac in_list := solve [rewrite !elem_of_cons; auto 10].

Lemma json_success_body (reply selected now : string) (sessionId : JsValue) :
  sessionId ≠ VUndefined →
  json [("reply", VString reply); ("userType", VString selected);
        ("sessionId", sessionId); ("success", VBool true);
        ("timestamp", VString now)]
  = [("reply", VString reply); ("userType", VString selected);
     ("sessionId", sessionId); ("success", VBool true);
     ("timestamp", VString now)].
Proof.
  intros Hs. by destruct sessionId.
Qed.

Lemma or_default_defined (v d : JsValue) : d ≠ VUndefined → or_default v d ≠ VUndefined.
Proof. by destruct v. Qed.

Lemma post_chat_replied NODE_ENV now b io text st :
  message_rejected (message b) = false →
  is_Some (chatSessions st !! chat_key b) ∨ io = InitOk →
  let selected := selectedUserType (or_default (userType b) (VString "general")) in
  (post_chat NODE_ENV now b io (Replied text) st).2
  = {| status := 200;
       body := [("reply", VString (trim text));
                ("userType", VString selected);
                ("sessionId", or_default (sessionId b) (VString "default"));
                ("success", VBool true);
                ("timestamp", VString now)] |} ∧
  selected ∈ validUserTypes.
Proof.
  intros Hm Hk selected. split; [|apply selectedUserType_valid].
  unfold post_chat.
  destruct (chatSessions st !! chat_key b) as [r|] eqn:Hr.
  - rewrite (chat_begin_reuse b io st r Hm Hr). unfold sending, chat_end, res_json.
    simpl. f_equal. by apply json_success_body, or_default_defined.
  - destruct Hk as [[? ?] | Hio]; [done|].
    rewrite (chat_begin_create b io st Hm Hr Hio). unfold sending, chat_end, res_json.
    simpl. f_equal. by apply json_success_body, or_default_defined.
Qed.

(** The answer to a message the model replied to: 200 with the reply
    trimmed, the user type the server settled on (always one of the three
    valid ones, whatever the body said), the session identifier as it came
    ("default" when the body had none), [success] and the time.  It is the
    same in every configuration. *)
Theorem post_chat_reply NODE_ENV now b io text st :
  message_rejected (message b) = false →
  is_Some (chatSessions st !! chat_key b) ∨ io = InitOk →
  let selected := selectedUserType (or_default (userType b) (VString "general")) in
  (post_chat NODE_ENV now b io (Replied text) st).2
  = {| status := 200;
       body := [("reply", VString (trim text));
                ("userType", VString selected);
                ("sessionId", or_default (sessionId b) (VString "default"));
                ("success", VBool true);
                ("timestamp", VString now)] |} ∧
  selected ∈ validUserTypes ∧
  (∀ NODE_ENV', (post_chat NODE_ENV' now b io (Replied text) st).2
                = (post_chat NODE_ENV now b io (Replied text) st).2).
Proof.
  intros Hm Hk selected.
  destruct (post_chat_replied NODE_ENV now b io text st Hm Hk) as [Hr Hv].
  split; [exact Hr|]. split; [exact Hv|]. intros NODE_ENV'.
  rewrite Hr. apply (post_chat_replied NODE_ENV' now b io text st Hm Hk).
Qed.

Lemma post_chat_reply_witness :
  (post_chat (Some "production") "2024-01-01T12:00:00.000Z"
     {| message := VString "  How do I start a bakery? "; userType := VString "investor";
        sessionId := VUndefined |}
     InitOk (Replied "Start small.
") start).2
  = {| status := 200;
       body := [("reply", VString "Start small.");
                ("userType", VString "general");
                ("sessionId", VString "default");
                ("success", VBool true);
                ("timestamp", VString "2024-01-01T12:00:00.000Z")] |}.
Proof.
  apply (post_chat_reply (Some "production") "2024-01-01T12:00:00.000Z"
           {| message := VString "  How do I start a bakery? ";
              userType := VString "investor"; sessionId := VUndefined |}
           InitOk "Start small.
" start eq_refl (or_intror eq_refl)).
Defined.

Lemma statusCode_values (m : string) :
  statusCode m = 408%Z ∨ statusCode m = 401%Z ∨ statusCode m = 429%Z
  ∨ statusCode m = 500%Z.
Proof.
  unfold statusCode. case_bool_decide; [by left|].
  destruct (includes "API key" m); [by right; left|].
  destruct (includes "quota" m); [by right; right; left | by right; right; right].
Qed.

(** The statuses of [POST /api/chat]: one of 200, 400, 401, 408, 429 and
    500; 400 exactly for a message that is absent, not a string or blank;
    200 exactly when the message is valid, a chat object exists or could
    be created, and the model replied. *)
Theorem post_chat_status NODE_ENV now b io o st :
  let r := (post_chat NODE_ENV now b io o st).2 in
  status r ∈ [200; 400; 401; 408; 429; 500]%Z ∧
  (status r = 400%Z ↔ absent_or_blank (message b)) ∧
  (status r = 200%Z ↔
     message_rejected (message b) = false ∧
     (is_Some (chatSessions st !! chat_key b) ∨ io = InitOk) ∧
     ∃ text, o = Replied text).
Proof.
  intros r. unfold r, post_chat. rewrite <- message_rejected_true_iff.
  destruct (message_rejected (message b)) eqn:Hm.
  { rewrite (chat_begin_rejected b io st Hm). simpl.
    split; [in_list|]. split; [done|]. split; [done | by intros [? _]]. }
  assert (∀ p, let r := chat_end NODE_ENV now p o in
               status r ∈ [200; 400; 401; 408; 429; 500]%Z ∧
               (status r = 400%Z ↔ false = true) ∧
               (status r = 200%Z ↔ ∃ text, o = Replied text)) as Hend.
  { intros p. destruct o as [text|m|]; simpl.
    - split; [in_list|]. split; [done|]. split; [eauto | done].
    - destruct (statusCode_values m) as [-> | [-> | [-> | ->]]];
        (split; [in_list|]); (split; [done|]); (split; [done|]); by intros [? ?].
    - split; [in_list|]. split; [done|]. split; [done|]. by intros [? ?].
  }
  destruct (chatSessions st !! chat_key b) as [k|] eqn:Hk.
  { rewrite (chat_begin_reuse b io st k Hm Hk). unfold sending.
    destruct (Hend {| p_chat := k; p_sessionKey := chat_key b;
                      p_userType := selectedUserType
                                      (or_default (userType b) (VString "general"));
                      p_sessionId := or_default (sessionId b) (VString "default") |})
      as (H1 & H2 & H3).
    split; [done|]. split; [done|]. rewrite H3. split; [eauto | by intros (_ & _ & ?)]. }
  assert (io = InitOk ∨ io ≠ InitOk) as [Hio|Hio] by (destruct io; auto).
  - rewrite (chat_begin_create b io st Hm Hk Hio). unfold sending.
    destruct (Hend {| p_chat := length (chats st); p_sessionKey := chat_key b;
                      p_userType := selectedUserType
                                      (or_default (userType b) (VString "general"));
                      p_sessionId := or_default (sessionId b) (VString "default") |})
      as (H1 & H2 & H3).
    split; [done|]. split; [done|]. rewrite H3. split; [eauto | by intros (_ & _ & ?)].
  - rewrite (chat_begin_init_fails b io st Hm Hk Hio). simpl.
    split; [in_list|]. split; [done|]. split; [done|].
    intros (_ & [[? ?] | ?] & _); done.
Qed.

(** ** What a request changes *)

Import Notions.

(** The three effects of [POST /api/chat] on the server state, with what
    is known of the request in each. *)
Lemma post_chat_effect NODE_ENV now b io o st :
  let st' := (post_chat NODE_ENV now b io o st).1 in
  let text := trim (string_of (message b)) in
  st' = st ∨
  (message_rejected (message b) = false ∧
   ∃ r, chatSessions st !! chat_key b = Some r ∧
        st' = {| chats := alter (sendMessage text) r (chats st);
                 chatSessions := chatSessions st |}) ∨
  (message_rejected (message b) = false ∧
   chatSessions st !! chat_key b = None ∧
   st' = {| chats := chats st
                     ++ [sendMessage text
                           (startChat (instructions
                              (selectedUserType
                                 (or_default (userType b) (VString "general")))))];
            chatSessions := <[chat_key b := length (chats st)]> (chatSessions st) |}).
Proof.
  intros st' text.
  destruct (message_rejected (message b)) eqn:Hm.
  { left. unfold st', post_chat. by rewrite (chat_begin_rejected b io st Hm). }
  destruct (post_chat_state NODE_ENV now b io o st) as [H | [H | H]]; auto.
Qed.

Lemma sendMessage_same_chat (text : string) (c : ChatSession) :
  same_chat c (sendMessage text c).
Proof. done. Qed.

(** [POST /api/chat] never removes or redirects an entry of the session
    table and touches no key but its own; it leaves every chat object but
    the one of its key as it was, and of that one it changes the log of
    sent texts only, by appending the trimmed message. *)
Theorem post_chat_frame NODE_ENV now b io o st :
  let st' := (post_chat NODE_ENV now b io o st).1 in
  (∀ k r, chatSessions st !! k = Some r → chatSessions st' !! k = Some r) ∧
  (∀ k, k ≠ chat_key b → chatSessions st' !! k = chatSessions st !! k) ∧
  (∀ i c, chats st !! i = Some c →
          chatSessions st !! chat_key b ≠ Some i →
          chats st' !! i = Some c) ∧
  (∀ i c, chats st !! i = Some c →
          ∃ c', chats st' !! i = Some c' ∧ same_chat c c' ∧
                (sent c' = sent c ∨
                 sent c' = sent c ++ [trim (string_of (message b))])).
Proof.
  intros st'.
  destruct (post_chat_effect NODE_ENV now b io o st)
    as [Heq | [(_ & r & Hr & Heq) | (_ & Hnone & Heq)]];
    fold st' in Heq; rewrite Heq; clear Heq st'; simpl.
  - repeat split; try done. intros i c Hc. exists c. by split; [|split; [|left]].
  - split; [done|]. split; [done|]. split.
    + intros i c Hc Hne. rewrite list_lookup_alter_ne; [done|]. congruence.
    + intros i c Hc. rewrite list_lookup_alter. case_decide as Hi.
      * subst i. rewrite Hc. simpl. eexists. split; [done|]. split; [done | by right].
      * exists c. by split; [|split; [|left]].
  - split.
    { intros k r Hk. rewrite lookup_insert_ne; [done|]. congruence. }
    split; [intros k Hk; by rewrite lookup_insert_ne|].
    assert (∀ i c, chats st !! i = Some c →
              (chats st ++ [sendMessage (trim (string_of (message b)))
                 (startChat (instructions (selectedUserType
                    (or_default (userType b) (VString "general")))))]) !! i = Some c) as Hold.
    { intros i c Hc. rewrite lookup_app_l; [done|]. by eapply lookup_lt_Some. }
    split; [intros i c Hc _; by apply Hold|].
    intros i c Hc. exists c. split; [by apply Hold|]. by split; [|left].
Qed.

Lemma errorMessage_by_status (m : string) :
  errorMessage m
  = if bool_decide (statusCode m = 408%Z) then "Request timed out. Please try again."
    else if bool_decide (statusCode m = 401%Z) then "Invalid API configuration"
    else if bool_decide (statusCode m = 429%Z)
         then "API quota exceeded. Please try again later."
         else "Failed to process chat message".
Proof.
  unfold errorMessage, statusCode. case_bool_decide; [done|].
  destruct (includes "API key" m); [done|]. by destruct (includes "quota" m).
Qed.

(** Outside the development configuration the answer to a failed send
    tells the class of the error and nothing else: two errors the server
    gives the same status get the same response, whatever their texts, and
    the [error] text is one of four fixed sentences. *)
Theorem send_failure_response_by_status NODE_ENV now b io o1 o2 st m1 m2 :
  NODE_ENV ≠ Some "development" →
  message_rejected (message b) = false →
  is_Some (chatSessions st !! chat_key b) ∨ io = InitOk →
  caught o1 = Some m1 →
  caught o2 = Some m2 →
  statusCode m1 = statusCode m2 →
  post_chat NODE_ENV now b io o1 st = post_chat NODE_ENV now b io o2 st ∧
  ∃ text, field "error" (body (post_chat NODE_ENV now b io o1 st).2) = Some (VString text) ∧
          text ∈ ["Request timed out. Please try again.";
                  "Invalid API configuration";
                  "API quota exceeded. Please try again later.";
                  "Failed to process chat message"].
Proof.
  intros Henv Hm Hk H1 H2 Hs.
  destruct (post_chat_sends NODE_ENV now b io o1 st Hm Hk) as (st1 & p1 & Hb1 & Hp1).
  destruct (post_chat_sends NODE_ENV now b io o2 st Hm Hk) as (st2 & p2 & Hb2 & Hp2).
  rewrite Hb1 in Hb2. injection Hb2 as <- <-. rewrite Hp1, Hp2.
  assert (∀ o m, caught o = Some m →
            chat_end NODE_ENV now p1 o
            = {| status := statusCode m;
                 body := [("error", VString (errorMessage m)); ("success", VBool false);
                          ("timestamp", VString now)] |}) as Hend.
  { intros o m Hc. destruct o; simpl in Hc; try discriminate; injection Hc as <-;
      unfold chat_end, res_status_json, json; simpl;
      by rewrite bool_decide_eq_false_2. }
  rewrite (Hend o1 m1 H1), (Hend o2 m2 H2), Hs, !errorMessage_by_status, Hs.
  split; [done|]. simpl. eexists. split; [done|].
  repeat case_bool_decide; in_list.
Qed.

Lemma send_failure_response_by_status_witness :
  let b := {| message := VString "What about funding?"; userType := VString "existing";
              sessionId := VString "s1" |} in
  post_chat (Some "production") "t" b InitOk (Threw "ECONNRESET 10.0.0.7:443") start
  = post_chat (Some "production") "t" b InitOk (Threw "model overloaded") start.
Proof.
  intros b.
  apply (send_failure_response_by_status (Some "production") "t" b InitOk
           (Threw "ECONNRESET 10.0.0.7:443") (Threw "model overloaded") start
           "ECONNRESET 10.0.0.7:443" "model overloaded"
           ltac:(discriminate) eq_refl (or_intror eq_refl) eq_refl eq_refl eq_refl).
Defined.

Lemma selectedUserType_idempotent (u : JsValue) :
  selectedUserType (VString (selectedUserType u)) = selectedUserType u.
Proof.
  pose proof (selectedUserType_valid u) as Hv.
  unfold selectedUserType at 1. simpl. by rewrite bool_decide_eq_true_2.
Qed.

(** A body with no user type or an unknown one is handled as the same body
    with "general", and a body with no session identifier as the same body
    with "default": same state afterwards, same response. *)
Theorem post_chat_defaults NODE_ENV now b io o st :
  post_chat NODE_ENV now b io o st = post_chat NODE_ENV now (normalised b) io o st.
Proof.
  assert (chat_begin b io st = chat_begin (normalised b) io st) as Heq.
  { unfold chat_begin, normalised. cbn [message userType sessionId or_default].
    rewrite selectedUserType_idempotent.
    by destruct (sessionId b). }
  unfold post_chat. by rewrite Heq.
Qed.

(** ** What the model receives *)

Lemma trimEnd_idempotent (s : string) : trimEnd (trimEnd s) = trimEnd s.
Proof.
  induction s as [|c t IH]; [done|]. cbn [trimEnd].
  destruct (trimEnd t) as [|c' t'] eqn:Ht.
  - destruct (is_white_space c) eqn:Hc; [done|]. cbn [trimEnd]. by rewrite Hc.
  - change (trimEnd (String c (String c' t')))
      with (match trimEnd (String c' t') with
            | EmptyString =>
                if is_white_space c then EmptyString else String c EmptyString
            | String x y => String c (String x y)
            end).
    by rewrite IH.
Qed.

Lemma trimEnd_head (c : Ascii.ascii) (t : string) :
  is_white_space c = false → ∃ t', trimEnd (String c t) = String c t'.
Proof.
  intros Hc. cbn [trimEnd]. rewrite Hc. destruct (trimEnd t); eauto.
Qed.

(** Trimming twice is trimming once. *)
Lemma trim_idempotent (s : string) : trim (trim s) = trim s.
Proof.
  unfold trim.
  destruct (trimStart_cases s) as [[-> _] | (c & t & -> & Hc & _)]; [done|].
  destruct (trimEnd_head c t Hc) as [t' Ht]. rewrite Ht.
  cbn [trimStart]. rewrite Hc, <- Ht. apply trimEnd_idempotent.
Qed.

Lemma sent_trimmed_kept (st : Server) : reachable st → sent_trimmed st.
Proof.
  induction 1 as [|NODE_ENV now b io o st _ IH|sid ut st _ IH|st _ IH];
    try exact IH.
  - intros i c t Hc. by destruct i.
  - assert (message_rejected (message b) = false →
            trim (string_of (message b)) ≠ "" ∧
            trim (trim (string_of (message b))) = trim (string_of (message b))) as Htext.
    { intros Hm. destruct (message_accepted_string _ Hm) as (s & -> & Hs).
      split; [done | apply trim_idempotent]. }
    destruct (post_chat_effect NODE_ENV now b io o st)
      as [Heq | [(Hm & r & Hr & Heq) | (Hm & Hnone & Heq)]]; rewrite Heq; clear Heq.
    + exact IH.
    + intros i c t Hc Ht. simpl in Hc. rewrite list_lookup_alter in Hc.
      case_decide as Hi; [|by eapply IH].
      subst i. destruct (chats st !! r) as [c0|] eqn:Hc0; [|done].
      injection Hc as <-. simpl in Ht. apply elem_of_app in Ht as [Ht | Ht].
      * by eapply IH.
      * apply list_elem_of_singleton in Ht as ->. by apply Htext.
    + intros i c t Hc Ht. simpl in Hc.
      apply lookup_app_Some in Hc as [Hc | [_ Hc]]; [by eapply IH|].
      apply list_lookup_singleton_Some in Hc as [_ <-]. simpl in Ht.
      apply list_elem_of_singleton in Ht as ->. by apply Htext.
Qed.

(** The model is never sent an empty text or one with white space around
    it: every text logged on a chat object of a server that has only run
    its routes is non-empty and equal to its own trimming. *)
Theorem reachable_sent_trimmed (st : Server) (i : nat) (c : ChatSession) (t : string) :
  reachable st →
  chats st !! i = Some c →
  t ∈ sent c →
  t ≠ "" ∧ trim t = t ∧ all_white_space t = false.
Proof.
  intros Hreach Hc Ht.
  destruct (sent_trimmed_kept st Hreach i c t Hc Ht) as [Hne Htrim].
  split; [done|]. split; [done|].
  destruct (all_white_space t) eqn:Hall; [|done].
  apply trim_empty_iff in Hall. congruence.
Qed.

Lemma reachable_sent_trimmed_witness :
  let b := {| message := VString "   How do I start a bakery?  ";
              userType := VString "aspiring"; sessionId := VString "s1" |} in
  let st := (post_chat None "t0" b InitOk (Replied "Start small.") start).1 in
  chats st !! 0 = Some (sendMessage "How do I start a bakery?"
                          (startChat (Some instructions_aspiring))) ∧
  trim "How do I start a bakery?" = "How do I start a bakery?".
Proof.
  intros b st. split; [reflexivity|].
  apply (reachable_sent_trimmed st 0
           (sendMessage "How do I start a bakery?" (startChat (Some instructions_aspiring)))
           "How do I start a bakery?").
  - apply (reach_post None "t0" b InitOk (Replied "Start small.") start reach_start).
  - reflexivity.
  - apply list_elem_of_here.
Defined.

(** ** Sessions and chat objects *)

(** The invariant behind the next theorem. *)
Lemma sessions_apart_kept (st : Server) : reachable st → sessions_apart st.
Proof.
  induction 1 as [|NODE_ENV now b io o st Hreach IH|sid ut st _ IH|st _ IH];
    try exact IH.
  - intros k1 k2 r Hk1. done.
  - destruct (post_chat_effect NODE_ENV now b io o st)
      as [Heq | [(_ & r & Hr & Heq) | (_ & Hnone & Heq)]]; rewrite Heq; clear Heq;
      try exact IH.
    assert (∀ k r, chatSessions st !! k = Some r → r < length (chats st)) as Hrange.
    { intros k r Hk.
      destruct (reachable_entries_initialised st Hreach k r Hk) as (c & Hc & _).
      by eapply lookup_lt_Some. }
    intros k1 k2 r. simpl. rewrite !lookup_insert_Some.
    intros [[<- <-] | [Hne1 Hk1]] [[<- Hr2] | [Hne2 Hk2]]; try done.
    + apply Hrange in Hk2. lia.
    + apply Hrange in Hk1. lia.
    + by eapply IH.
  - intros k1 k2 r. simpl. rewrite !lookup_delete_Some. intros [_ Hk1] [_ Hk2].
    by eapply IH.
Qed.

(** On a server that has only run its routes two session keys never share
    a chat object, so a message of one session is never logged on the
    conversation of another, and every entry refers to a chat object that
    exists. *)
Theorem reachable_sessions_apart (st : Server) :
  reachable st →
  sessions_apart st ∧
  ∀ k r, chatSessions st !! k = Some r → r < length (chats st).
Proof.
  intros Hreach. split; [by apply sessions_apart_kept|].
  intros k r Hk.
  destruct (reachable_entries_initialised st Hreach k r Hk) as (c & Hc & _).
  by eapply lookup_lt_Some.
Qed.

Lemma reachable_sessions_apart_witness :
  let b1 := {| message := VString "How do I start a bakery?";
               userType := VString "aspiring"; sessionId := VString "s1" |} in
  let b2 := {| message := VString "How do I scale my shop?";
               userType := VString "existing"; sessionId := VString "s1" |} in
  let st1 := (post_chat None "t0" b1 InitOk (Replied "Start small.") start).1 in
  let st2 := (post_chat None "t1" b2 InitOk TimerFirst st1).1 in
  chatSessions st2 !! "aspiring_s1" = Some 0 ∧
  chatSessions st2 !! "existing_s1" = Some 1 ∧
  sessions_apart st2.
Proof.
  intros b1 b2 st1 st2. split; [reflexivity|]. split; [reflexivity|].
  apply (reachable_sessions_apart st2).
  apply (reach_post None "t1" b2 InitOk TimerFirst st1).
  apply (reach_post None "t0" b1 InitOk (Replied "Start small.") start reach_start).
Defined.

(** Clearing a session starts the conversation anew: after
    [DELETE /api/chat/:sessionId] for the key of a body, the next valid
    message with that body goes to a chat object made for it, whose log
    holds that message only; the object the key referred to before stays
    as it was, with no key left for it. *)
Theorem delete_then_post_fresh NODE_ENV now b o sid ut st :
  reachable st →
  message_rejected (message b) = false →
  delete_key sid ut = chat_key b →
  let st1 := (delete_chat sid ut st).1 in
  let st2 := (post_chat NODE_ENV now b InitOk o st1).1 in
  let n := length (chats st) in
  chatSessions st2 !! chat_key b = Some n ∧
  chats st2 !! n
  = Some (sendMessage (trim (string_of (message b)))
            (startChat (instructions
               (selectedUserType (or_default (userType b) (VString "general")))))) ∧
  (∀ r, chatSessions st !! chat_key b = Some r →
        r < n ∧ chats st2 !! r = chats st !! r ∧
        ∀ k, chatSessions st2 !! k ≠ Some r).
Proof.
  intros Hreach Hm Hkey st1 st2 n.
  assert (chatSessions st1 !! chat_key b = None) as Hnone.
  { unfold st1. simpl. rewrite Hkey. apply lookup_delete_eq. }
  assert (st2 = {| chats := chats st ++ [sendMessage (trim (string_of (message b)))
                     (startChat (instructions (selectedUserType
                        (or_default (userType b) (VString "general")))))];
                   chatSessions := <[chat_key b := n]>
                                     (delete (chat_key b) (chatSessions st)) |}) as Hst2.
  { unfold st2. rewrite (post_chat_create NODE_ENV now b InitOk o st1 Hm Hnone eq_refl).
    unfold st1. simpl. by rewrite Hkey. }
  rewrite Hst2. simpl. split; [apply lookup_insert_eq|]. split.
  { rewrite lookup_app_r by (unfold n; lia). unfold n. by rewrite Nat.sub_diag. }
  intros r Hr.
  assert (r < n) as Hlt.
  { destruct (reachable_entries_initialised st Hreach _ r Hr) as (c & Hc & _).
    by eapply lookup_lt_Some. }
  split; [done|]. split; [by rewrite lookup_app_l|].
  intros k Hk. apply lookup_insert_Some in Hk as [[_ Hn] | [Hne Hk]]; [lia|].
  apply lookup_delete_Some in Hk as [_ Hk].
  apply Hne. symmetry. by apply (sessions_apart_kept st Hreach k (chat_key b) r).
Qed.

Lemma delete_then_post_fresh_witness :
  let b := {| message := VString "How do I start a bakery?";
              userType := VString "aspiring"; sessionId := VString "s1" |} in
  let b' := {| message := VString " Let us start over. ";
               userType := VString "aspiring"; sessionId := VString "s1" |} in
  let st := (post_chat None "t0" b InitOk (Replied "Start small.") start).1 in
  let st1 := (delete_chat "s1" (VString "aspiring") st).1 in
  let st2 := (post_chat None "t1" b' InitOk (Replied "Gladly.") st1).1 in
  chatSessions st !! "aspiring_s1" = Some 0 ∧
  chatSessions st2 !! "aspiring_s1" = Some 1 ∧
  sent <$> chats st2 !! 1 = Some ["Let us start over."] ∧
  sent <$> chats st2 !! 0 = Some ["How do I start a bakery?"].
Proof.
  intros b b' st st1 st2.
  assert (reachable st) as Hreach.
  { apply (reach_post None "t0" b InitOk (Replied "Start small.") start reach_start). }
  destruct (delete_then_post_fresh None "t1" b' (Replied "Gladly.") "s1" (VString "aspiring")
              st Hreach eq_refl eq_refl) as (Hnew & Hobj & Hold).
  split; [reflexivity|]. split; [exact Hnew|]. split.
  - exact (f_equal (fmap sent) Hobj).
  - destruct (Hold 0 eq_refl) as (_ & Hkept & _).
    exact (f_equal (fmap sent) Hkept).
Defined.

(** ** Requests in flight and the server state *)

Lemma chat_begin_state NODE_ENV now b io o st :
  (chat_begin b io st).1 = (post_chat NODE_ENV now b io o st).1.
Proof. unfold post_chat. by destruct (chat_begin b io st) as [st' [r|p]]. Qed.

(** Handling requests concurrently adds no server state: whatever order
    the event loop takes, it leaves a server that has only run its routes
    in a state the routes can produce one request after the other, so the
    session table still refers to initialised chat objects only, no two
    keys share one, and every text sent is trimmed. *)
Theorem event_loop_reachable NODE_ENV (s s' : EventLoop.System) :
  reachable (EventLoop.server s) →
  rtc (EventLoop.step NODE_ENV) s s' →
  reachable (EventLoop.server s') ∧
  entries_initialised (EventLoop.server s') ∧
  sessions_apart (EventLoop.server s') ∧
  sent_trimmed (EventLoop.server s') ∧
  length (EventLoop.tasks s') = length (EventLoop.tasks s).
Proof.
  intros Hreach Hrun.
  assert (reachable (EventLoop.server s') ∧
          length (EventLoop.tasks s') = length (EventLoop.tasks s)) as [Hr Hlen].
  { revert s' Hrun. apply rtc_ind_r; [done|].
    intros s1 s2 _ Hstep [IH Hlen]. destruct Hstep as [s1 i b io Hi | s1 i p o now Hi]; simpl.
    - rewrite length_insert. split; [|done].
      rewrite (chat_begin_state NODE_ENV "" b io TimerFirst). by apply reach_post.
    - by rewrite length_insert. }
  split; [done|]. split; [by apply reachable_entries_initialised|].
  split; [by apply sessions_apart_kept|]. split; [by apply sent_trimmed_kept | done].
Qed.

Lemma event_loop_reachable_witness :
  let b1 := {| message := VString "How do I start a bakery?";
               userType := VString "aspiring"; sessionId := VString "s1" |} in
  let b2 := {| message := VString "How do I scale my shop?";
               userType := VString "existing"; sessionId := VString "s2" |} in
  let s0 := EventLoop.arrivals [(b1, InitOk); (b2, InitOk)] start in
  let s1 := {| EventLoop.server := (chat_begin b2 InitOk (EventLoop.server s0)).1;
               EventLoop.tasks :=
                 <[1 := EventLoop.begun b2 InitOk (EventLoop.server s0)]>
                   (EventLoop.tasks s0) |} in
  let s2 := {| EventLoop.server := (chat_begin b1 InitOk (EventLoop.server s1)).1;
               EventLoop.tasks :=
                 <[0 := EventLoop.begun b1 InitOk (EventLoop.server s1)]>
                   (EventLoop.tasks s1) |} in
  chatSessions (EventLoop.server s2) !! "existing_s2" = Some 0 ∧
  chatSessions (EventLoop.server s2) !! "aspiring_s1" = Some 1 ∧
  reachable (EventLoop.server s2) ∧
  sessions_apart (EventLoop.server s2).
Proof.
  intros b1 b2 s0 s1 s2. split; [reflexivity|]. split; [reflexivity|].
  assert (rtc (EventLoop.step None) s0 s2) as Hrun.
  { eapply rtc_l; [apply (EventLoop.step_begin None s0 1 b2 InitOk); reflexivity|].
    eapply rtc_l; [apply (EventLoop.step_begin None s1 0 b1 InitOk); reflexivity|].
    apply rtc_refl. }
  destruct (event_loop_reachable None s0 s2 reach_start Hrun) as (Hr & _ & Ha & _).
  split; [exact Hr | exact Ha].
Defined.

(** * The client *)

(** ** The client and the server agree *)

Lemma built_userType_valid (c : Client.ChatbotClient) :
  Client.built c → Client.userType c ∈ validUserTypes.
Proof.
  induction 1 as [baseUrl now random | type c _ IH | c o now random _ IH]; simpl.
  - unfold validUserTypes. in_list.
  - unfold array_includes. destruct type as [| |x|n|s|str];
      try (unfold validUserTypes; in_list).
    simpl. case_bool_decide as Hs; [exact Hs | unfold validUserTypes; in_list].
  - unfold Client.clearSession. destruct o as [r|e]; [|exact IH].
    by destruct (Client.ok r).
Qed.

Lemma selectedUserType_of_valid (t : string) :
  t ∈ validUserTypes → selectedUserType (VString t) = t.
Proof.
  intros Ht. unfold selectedUserType. simpl. by rewrite bool_decide_eq_true_2.
Qed.

(** [setUserType] settles on a user type the way the server does, so a
    client made by the constructor and the methods always holds one of the
    three valid user types; the body it sends for a valid message passes
    the validation of the server, is left as it is by the defaults and the
    coercion of the server, and is filed under the key made of the
    client's user type and session identifier. *)
Theorem client_request_accepted (c : Client.ChatbotClient) (m : JsValue) :
  Client.built c →
  message_rejected m = false →
  let b := Client.requestData c m in
  (∀ type, Client.userType (Client.setUserType type c) = selectedUserType type) ∧
  Client.userType c ∈ validUserTypes ∧
  message_rejected (message b) = false ∧
  normalised b = b ∧
  chat_key b = Client.userType c +:+ "_" +:+ Client.sessionId c.
Proof.
  intros Hc Hm b. pose proof (built_userType_valid c Hc) as Hv.
  split; [done|]. split; [done|].
  destruct (message_accepted_string m Hm) as (s & -> & Hs).
  split.
  { simpl. apply not_true_is_false. rewrite message_rejected_true_iff.
    intros [H | [H | (s' & [= <-] & H)]]; [done | done |].
    rewrite trim_idempotent in H. done. }
  split.
  - unfold normalised, b, Client.requestData. cbn [message userType sessionId or_default].
    by rewrite (selectedUserType_of_valid _ Hv).
  - unfold chat_key, b, Client.requestData. cbn [message userType sessionId or_default].
    by rewrite (selectedUserType_of_valid _ Hv).
Qed.

Lemma client_request_accepted_witness :
  let c := Client.setUserType (VString "investor")
             (Client.construct None 1704110400000 "k3j9x0q2a") in
  let b := Client.requestData c (VString "  How do I start a bakery? ") in
  Client.userType c = "general" ∧
  message b = VString "How do I start a bakery?" ∧
  chat_key b = "general_session_1704110400000_k3j9x0q2a".
Proof.
  intros c b.
  destruct (client_request_accepted c (VString "  How do I start a bakery? ")
              (Client.built_setUserType _ _ (Client.built_construct None 1704110400000 "k3j9x0q2a"))
              eq_refl) as (_ & _ & _ & _ & Hkey).
  split; [reflexivity|]. split; [reflexivity|]. exact Hkey.
Defined.

(** Through the client a session is cleared under the key its messages
    were filed under: when the server reads the session identifier and the
    user type the client put in the URL, [DELETE /api/chat/:sessionId]
    removes the entry [POST /api/chat] made for the client's body, and,
    the server answering 200, [clearSession] returns [true] and moves the
    client to a new session identifier, keeping its user type. *)
Theorem client_clear_removes_session
    (c : Client.ChatbotClient) (m : JsValue) NODE_ENV now o st statusText now' random :
  Client.built c →
  message_rejected m = false →
  let b := Client.requestData c m in
  let st1 := (post_chat NODE_ENV now b InitOk o st).1 in
  let cleared := delete_chat (Client.sessionId c) (VString (Client.userType c)) st1 in
  delete_key (Client.sessionId c) (VString (Client.userType c)) = chat_key b ∧
  is_Some (chatSessions st1 !! chat_key b) ∧
  chatSessions cleared.1 !! chat_key b = None ∧
  Client.clearSession c (Client.Responds (Client.delivered cleared.2 statusText)) now' random
  = ({| Client.baseUrl := Client.baseUrl c;
        Client.sessionId := Client.generateSessionId now' random;
        Client.userType := Client.userType c |},
     true,
     [Client.Delete (Client.baseUrl c +:+ "/api/chat/" +:+ Client.sessionId c
                     +:+ "?userType=" +:+ Client.userType c)]).
Proof.
  intros Hc Hm b st1 cleared.
  pose proof (built_userType_valid c Hc) as Hv.
  assert (delete_key (Client.sessionId c) (VString (Client.userType c)) = chat_key b) as Hkey.
  { unfold chat_key, b, Client.requestData. cbn [message userType sessionId or_default].
    by rewrite (selectedUserType_of_valid _ Hv). }
  assert (message_rejected (message b) = false) as Hmb.
  { destruct (message_accepted_string m Hm) as (s & -> & Hs).
    simpl. apply not_true_is_false. rewrite message_rejected_true_iff.
    intros [H | [H | (s' & [= <-] & H)]]; [done | done |].
    rewrite trim_idempotent in H. done. }
  split; [done|]. split.
  { unfold st1. destruct (chatSessions st !! chat_key b) as [r|] eqn:Hr.
    - rewrite (post_chat_reuse NODE_ENV now b InitOk o st Hmb r Hr). simpl. by rewrite Hr.
    - rewrite (post_chat_create NODE_ENV now b InitOk o st Hmb Hr eq_refl). simpl.
      by rewrite lookup_insert_eq. }
  split; [|done].
  unfold cleared, delete_chat. simpl. rewrite Hkey. apply lookup_delete_eq.
Qed.

Lemma client_clear_removes_session_witness :
  let c := Client.setUserType (VString "existing")
             (Client.construct None 1704110400000 "k3j9x0q2a") in
  let b := Client.requestData c (VString "How do I scale my shop?") in
  let st1 := (post_chat None "t0" b InitOk (Replied "Hire.") start).1 in
  chat_key b = "existing_session_1704110400000_k3j9x0q2a" ∧
  chatSessions
    (delete_chat (Client.sessionId c) (VString (Client.userType c)) st1).1
  !! "existing_session_1704110400000_k3j9x0q2a" = None.
Proof.
  intros c b st1.
  destruct (client_clear_removes_session c (VString "How do I scale my shop?")
              None "t0" (Replied "Hire.") start "OK" 1704110460000 "zz81m2p0q"
              (Client.built_setUserType _ _
                 (Client.built_construct None 1704110400000 "k3j9x0q2a"))
              eq_refl) as (_ & _ & Hgone & _).
  split; [reflexivity | exact Hgone].
Defined.

(** ** The retry loop of [sendMessage] *)

Section Retry.

Import Client.

Variables (c : ChatbotClient) (opts : Options) (body : ChatBody).
Variable outcomes : nat → FetchOutcome.

Lemma posts_progress (text : string) : posts (progress opts text) = [].
Proof. unfold progress. by destruct (onProgress opts). Qed.

Lemma waits_progress (text : string) : waits (progress opts text) = [].
Proof. unfold progress. by destruct (onProgress opts). Qed.

Lemma posts_app (l1 l2 : list Event) : posts (l1 ++ l2) = posts l1 ++ posts l2.
Proof. apply omap_app. Qed.

Lemma waits_app (l1 l2 : list Event) : waits (l1 ++ l2) = waits l1 ++ waits l2.
Proof. apply omap_app. Qed.

(** The attempt the loop stops at. *)
Lemma attempts_stop (n a : nat) :
  (goes_on (attempt_outcome (outcomes a)) → Z.of_nat a = (retries opts + 1)%Z) →
  let run := attempts c opts body outcomes (S n) a in
  run.2 = settled (attempt_outcome (outcomes a)) ∧
  posts run.1 = [body] ∧
  waits run.1 = [].
Proof.
  intros Hlast. cbn [attempts].
  destruct (attempt_outcome (outcomes a)) as [data|e] eqn:Ho; simpl.
  { by rewrite !posts_app, !waits_app, !posts_progress, !waits_progress. }
  case_bool_decide as Habort; simpl.
  { by rewrite !posts_app, !waits_app, !posts_progress, !waits_progress. }
  destruct (includes "401" (message e) || includes "Invalid API" (message e)) eqn:Hauth; simpl.
  { by rewrite !posts_app, !waits_app, !posts_progress, !waits_progress. }
  rewrite bool_decide_eq_true_2; simpl.
  { by rewrite !posts_app, !waits_app, !posts_progress, !waits_progress. }
  apply Hlast. exists e. split; [done|]. unfold retried.
  by rewrite Hauth, bool_decide_eq_false_2.
Qed.

(** An attempt the loop goes on from. *)
Lemma attempts_next (n a : nat) :
  goes_on (attempt_outcome (outcomes a)) →
  Z.of_nat a ≠ (retries opts + 1)%Z →
  let run := attempts c opts body outcomes (S n) a in
  let rest := attempts c opts body outcomes n (S a) in
  run.2 = rest.2 ∧
  posts run.1 = body :: posts rest.1 ∧
  waits run.1 = (2 ^ (Z.of_nat a - 1) * 1000)%Z :: waits rest.1.
Proof.
  intros (e & Ho & Hre) Hne. cbn [attempts]. rewrite Ho.
  unfold retried in Hre. apply andb_true_iff in Hre as [Hab Hau].
  apply negb_true_iff in Hab, Hau. rewrite Hab, Hau.
  rewrite bool_decide_eq_false_2 by done. simpl.
  by rewrite !posts_app, !waits_app, !posts_progress, !waits_progress.
Qed.

Lemma attempts_skip (j : nat) :
  ∀ n a,
    (∀ i, a ≤ i < a + j → goes_on (attempt_outcome (outcomes i))) →
    (Z.of_nat (a + j) ≤ retries opts + 1)%Z →
    let run := attempts c opts body outcomes (j + n) a in
    let rest := attempts c opts body outcomes n (a + j) in
    run.2 = rest.2 ∧
    posts run.1 = replicate j body ++ posts rest.1 ∧
    waits run.1 = pauses a j ++ waits rest.1.
Proof.
  induction j as [|j IH]; intros n a Hgo Hle.
  - simpl. by rewrite Nat.add_0_r.
  - destruct (attempts_next (j + n) a) as (H2 & Hp & Hw); [apply Hgo; lia | lia |].
    destruct (IH n (S a)) as (H2' & Hp' & Hw'); [intros i Hi; apply Hgo; lia | lia |].
    replace (a + S j) with (S a + j) by lia.
    change (S j + n) with (S (j + n)). simpl in *.
    rewrite H2, Hp, Hw, H2', Hp', Hw'. done.
Qed.

(** A run keeps within the attempts the loop condition allows, sends the
    same body at each, and pauses by the schedule between them. *)
Lemma attempts_shape (n : nat) :
  ∀ a, (Z.of_nat a + Z.of_nat n = retries opts + 2)%Z →
       let run := attempts c opts body outcomes n a in
       ∃ k, k ≤ n ∧
            posts run.1 = replicate k body ∧
            waits run.1 = pauses a (k - 1) ∧
            (0 < n → 0 < k ∧ run.2 ≠ ReturnsUndefined).
Proof.
  induction n as [|n IH]; intros a Hbound.
  - exists 0. simpl. split; [done|]. split; [done|]. split; [done | lia].
  - assert (Decision (goes_on (attempt_outcome (outcomes a)))) as Hdec.
    { unfold goes_on. destruct (attempt_outcome (outcomes a)) as [d|e].
      - right. by intros (? & ? & _).
      - destruct (retried e) eqn:Hr; [left; eauto|].
        right. intros (e' & [= <-] & He'). congruence. }
    destruct (decide (n = 0)) as [->|Hn].
    + destruct (attempts_stop 0 a) as (H2 & Hp & Hw); [intros _; lia|].
      exists 1. rewrite Hp, Hw. split; [lia|]. split; [done|]. split; [done|].
      intros _. split; [lia|]. rewrite H2.
      destruct (attempt_outcome (outcomes a)) as [d|e]; simpl; [done|].
      by repeat case_match.
    + destruct Hdec as [Hgo|Hstop].
      * destruct (attempts_next n a Hgo) as (H2 & Hp & Hw); [lia|].
        destruct (IH (S a)) as (k & Hk & Hp' & Hw' & Hpos); [lia|].
        destruct Hpos as [Hk0 Hdef]; [lia|].
        exists (S k). rewrite H2, Hp, Hw, Hp', Hw'.
        split; [lia|]. split; [done|]. split.
        { destruct k as [|k]; [lia|]. simpl. by rewrite Nat.sub_0_r. }
        intros _. split; [lia | done].
      * destruct (attempts_stop n a) as (H2 & Hp & Hw); [done|].
        exists 1. rewrite Hp, Hw. split; [lia|]. split; [done|]. split; [done|].
        intros _. split; [lia|]. rewrite H2.
        destruct (attempt_outcome (outcomes a)) as [d|e]; simpl; [done|].
        by repeat case_match.
Qed.

End Retry.

Lemma pauses_sum (a j : nat) :
  foldr Z.add 0%Z (Client.pauses (S a) j)
  = ((2 ^ Z.of_nat (a + j) - 2 ^ Z.of_nat a) * 1000)%Z.
Proof.
  revert a. induction j as [|j IH]; intros a.
  - simpl. rewrite Nat.add_0_r. lia.
  - unfold Client.pauses in *. cbn [seq fmap list_fmap foldr]. rewrite IH.
    replace (Z.of_nat (S a) - 1)%Z with (Z.of_nat a) by lia.
    replace (S a + j) with (a + S j) by lia.
    replace (Z.of_nat (S a)) with (Z.succ (Z.of_nat a)) by lia.
    rewrite Z.pow_succ_r by lia. lia.
Qed.

Lemma sendMessage_stops_at (c : Client.ChatbotClient) (m : JsValue)
    (opts : Client.Options) (outcomes : nat → Client.FetchOutcome) (k : nat) :
  message_rejected m = false →
  1 ≤ k →
  (Z.of_nat k ≤ Client.retries opts + 1)%Z →
  (∀ i, 1 ≤ i < k → Client.goes_on (Client.attempt_outcome (outcomes i))) →
  (Client.goes_on (Client.attempt_outcome (outcomes k)) →
   Z.of_nat k = (Client.retries opts + 1)%Z) →
  let run := Client.sendMessage c m opts outcomes in
  run.2 = Client.settled (Client.attempt_outcome (outcomes k)) ∧
  Client.posts run.1 = replicate k (Client.requestData c m) ∧
  Client.waits run.1 = Client.pauses 1 (k - 1).
Proof.
  intros Hm Hk Hle Hgo Hlast run. subst run. unfold Client.sendMessage. rewrite Hm.
  set (body := Client.requestData c m).
  set (n := Z.to_nat (Client.retries opts + 1) - k).
  replace (Z.to_nat (Client.retries opts + 1)) with ((k - 1) + S n) by lia.
  destruct (attempts_skip c opts body outcomes (k - 1) (S n) 1) as (H2 & Hp & Hw).
  { intros i Hi. apply Hgo. lia. }
  { lia. }
  destruct (attempts_stop c opts body outcomes n (1 + (k - 1))) as (H2' & Hp' & Hw').
  { replace (1 + (k - 1)) with k by lia. exact Hlast. }
  cbv zeta in H2, Hp, Hw, H2', Hp', Hw'.
  rewrite H2, Hp, Hw, H2', Hp', Hw'.
  replace (1 + (k - 1)) with k by lia.
  split; [done|]. split; [|by rewrite app_nil_r].
  destruct k as [|k]; [lia|]. simpl. rewrite Nat.sub_0_r.
  by rewrite <- replicate_cons_app.
Qed.

(** [sendMessage] makes at most [retries + 1] requests, each with the same
    body (the trimmed message, the client's user type and session
    identifier), and between consecutive requests it pauses 1000, 2000,
    4000, ... milliseconds: [2 ^ (a - 1) * 1000] after attempt [a]. *)
Theorem sendMessage_requests (c : Client.ChatbotClient) (m : JsValue)
    (opts : Client.Options) (outcomes : nat → Client.FetchOutcome) :
  let run := Client.sendMessage c m opts outcomes in
  ∃ k, k ≤ Z.to_nat (Client.retries opts + 1) ∧
       Client.posts run.1 = replicate k (Client.requestData c m) ∧
       Client.waits run.1 = Client.pauses 1 (k - 1) ∧
       length (Client.waits run.1) = k - 1.
Proof.
  intros run. unfold run, Client.sendMessage.
  destruct (message_rejected m).
  { exists 0. simpl. split; [lia | done]. }
  destruct (decide (Client.retries opts + 1 < 0)%Z) as [Hneg|Hpos].
  { replace (Z.to_nat (Client.retries opts + 1)) with 0 by lia.
    exists 0. simpl. split; [lia | done]. }
  destruct (attempts_shape c opts (Client.requestData c m) outcomes
              (Z.to_nat (Client.retries opts + 1)) 1) as (k & Hk & Hp & Hw & _); [lia|].
  exists k. split; [done|]. split; [done|]. split; [done|].
  rewrite Hw. unfold Client.pauses. by rewrite length_fmap, length_seq.
Qed.

(** The edges of [sendMessage]: a message that is absent, not a string or
    blank is refused with an error before any request is made; with a
    negative [retries] a valid message is not sent at all and the method
    resolves to [undefined]; with [retries] zero or more a valid message
    is sent at least once and the method returns data or throws. *)
Theorem sendMessage_edges (c : Client.ChatbotClient) (m : JsValue)
    (opts : Client.Options) (outcomes : nat → Client.FetchOutcome) :
  let run := Client.sendMessage c m opts outcomes in
  (absent_or_blank m →
   run = ([], Client.Throws
                (Client.new_Error "Message is required and must be a non-empty string"))) ∧
  (message_rejected m = false → (Client.retries opts < 0)%Z →
   run = ([], Client.ReturnsUndefined)) ∧
  (message_rejected m = false → (0 ≤ Client.retries opts)%Z →
   Client.posts run.1 ≠ [] ∧ run.2 ≠ Client.ReturnsUndefined).
Proof.
  intros run. unfold run, Client.sendMessage. split; [|split].
  - intros H. apply message_rejected_true_iff in H. by rewrite H.
  - intros -> Hneg. by replace (Z.to_nat (Client.retries opts + 1)) with 0 by lia.
  - intros -> Hpos.
    destruct (attempts_shape c opts (Client.requestData c m) outcomes
                (Z.to_nat (Client.retries opts + 1)) 1) as (k & Hk & Hp & Hw & Hdef); [lia|].
    destruct Hdef as [Hk0 Hdef]; [lia|]. split; [|done].
    rewrite Hp. destruct k; [lia | done].
Qed.

Lemma sendMessage_edges_witness :
  let c := Client.construct None 1704110400000 "k3j9x0q2a" in
  let never := λ _ : nat, Client.Fails {| Client.name := "TypeError";
                                          Client.message := "Failed to fetch" |} in
  Client.sendMessage c (VString "   ") Client.default_options never
  = ([], Client.Throws
           (Client.new_Error "Message is required and must be a non-empty string")) ∧
  Client.sendMessage c (VString "hello")
    {| Client.timeout := 35000; Client.retries := -1; Client.onProgress := true |} never
  = ([], Client.ReturnsUndefined).
Proof.
  intros c never. split.
  - apply (sendMessage_edges c (VString "   ") Client.default_options never).
    right; right. by exists "   ".
  - apply (sendMessage_edges c (VString "hello")
             {| Client.timeout := 35000; Client.retries := -1; Client.onProgress := true |}
             never); [reflexivity | reflexivity].
Defined.

(** [sendMessage] stops at the first attempt that does not end in an error
    it retries, or at attempt [retries + 1]: there it returns the data of
    the response, or throws the timeout error for an aborted request, the
    authentication error for an error whose text has "401" or
    "Invalid API", and else the error itself.  Up to there it has made
    one request per attempt and paused by the schedule in between. *)
Theorem sendMessage_settles (c : Client.ChatbotClient) (m : JsValue)
    (opts : Client.Options) (outcomes : nat → Client.FetchOutcome) (k : nat) :
  message_rejected m = false →
  1 ≤ k →
  (Z.of_nat k ≤ Client.retries opts + 1)%Z →
  (∀ i, 1 ≤ i < k → Client.goes_on (Client.attempt_outcome (outcomes i))) →
  (Client.goes_on (Client.attempt_outcome (outcomes k)) →
   Z.of_nat k = (Client.retries opts + 1)%Z) →
  let run := Client.sendMessage c m opts outcomes in
  run.2 = Client.settled (Client.attempt_outcome (outcomes k)) ∧
  Client.posts run.1 = replicate k (Client.requestData c m) ∧
  Client.waits run.1 = Client.pauses 1 (k - 1).
Proof. apply sendMessage_stops_at. Qed.

Lemma sendMessage_settles_witness :
  let c := Client.construct None 1704110400000 "k3j9x0q2a" in
  let reply := Client.PObject [("reply", VString "Start small."); ("success", VBool true)] in
  let outcomes := λ a : nat,
    if decide (a = 1) then
      Client.Fails {| Client.name := "TypeError"; Client.message := "Failed to fetch" |}
    else if decide (a = 2) then
      Client.Responds {| Client.status := 429; Client.statusText := "Too Many Requests";
                         Client.json := inr (Client.PObject
                           [("error", VString "API quota exceeded. Please try again later.");
                            ("success", VBool false)]) |}
    else
      Client.Responds {| Client.status := 200; Client.statusText := "OK";
                         Client.json := inr reply |} in
  let run := Client.sendMessage c (VString "How do I start a bakery?")
               Client.default_options outcomes in
  run.2 = Client.Returns reply ∧
  length (Client.posts run.1) = 3 ∧
  Client.waits run.1 = [1000; 2000]%Z.
Proof.
  intros c reply outcomes run.
  destruct (sendMessage_settles c (VString "How do I start a bakery?")
              Client.default_options outcomes 3) as (H2 & Hp & Hw).
  - reflexivity.
  - lia.
  - vm_compute. discriminate.
  - intros i Hi. assert (i = 1 ∨ i = 2) as [-> | ->] by lia.
    + eexists. split; reflexivity.
    + eexists. split; reflexivity.
  - intros (e & He & _). discriminate He.
  - split; [exact H2|]. split; [|exact Hw].
    fold run in Hp. by rewrite Hp.
Defined.

(** When every attempt ends in an error that is retried, [sendMessage]
    throws the error of attempt [retries + 1], after [retries + 1]
    requests and [(2 ^ retries - 1) * 1000] milliseconds of pauses in
    all. *)
Theorem sendMessage_gives_up (c : Client.ChatbotClient) (m : JsValue)
    (opts : Client.Options) (outcomes : nat → Client.FetchOutcome) :
  message_rejected m = false →
  (0 ≤ Client.retries opts)%Z →
  (∀ i, 1 ≤ i ≤ Z.to_nat (Client.retries opts + 1) →
        Client.goes_on (Client.attempt_outcome (outcomes i))) →
  let run := Client.sendMessage c m opts outcomes in
  (∃ e, Client.attempt_outcome (outcomes (Z.to_nat (Client.retries opts + 1))) = inr e ∧
        run.2 = Client.Throws e) ∧
  length (Client.posts run.1) = Z.to_nat (Client.retries opts + 1) ∧
  foldr Z.add 0%Z (Client.waits run.1) = ((2 ^ Client.retries opts - 1) * 1000)%Z.
Proof.
  intros Hm Hpos Hgo run.
  set (k := Z.to_nat (Client.retries opts + 1)).
  destruct (sendMessage_stops_at c m opts outcomes k Hm) as (H2 & Hp & Hw);
    [unfold k; lia | unfold k; lia | intros i Hi; apply Hgo; fold k; lia
     | intros _; unfold k; lia |].
  fold run in H2, Hp, Hw. split; [|split].
  - destruct (Hgo k) as (e & He & Hre); [unfold k; lia|].
    exists e. split; [done|]. rewrite H2, He. simpl.
    unfold Client.retried in Hre. apply andb_true_iff in Hre as [Hab Hau].
    apply negb_true_iff in Hab, Hau. by rewrite Hab, Hau.
  - by rewrite Hp, length_replicate.
  - rewrite Hw, (pauses_sum 0 (k - 1)). simpl.
    replace (Z.of_nat (k - 1)) with (Client.retries opts) by (unfold k; lia). lia.
Qed.

Lemma sendMessage_gives_up_witness :
  let c := Client.construct None 1704110400000 "k3j9x0q2a" in
  let down := {| Client.name := "TypeError"; Client.message := "Failed to fetch" |} in
  let run := Client.sendMessage c (VString "How do I start a bakery?")
               Client.default_options (λ _, Client.Fails down) in
  length (Client.posts run.1) = 3 ∧
  foldr Z.add 0%Z (Client.waits run.1) = 3000%Z.
Proof.
  intros c down run.
  destruct (sendMessage_gives_up c (VString "How do I start a bakery?")
              Client.default_options (λ _, Client.Fails down)) as (_ & Hn & Hsum).
  - reflexivity.
  - vm_compute. discriminate.
  - intros i _. exists down. split; reflexivity.
  - split; [exact Hn | exact Hsum].
Defined.

(** ** The client against the server *)

Lemma requestData_accepted (c : Client.ChatbotClient) (m : JsValue) :
  message_rejected m = false →
  message_rejected (message (Client.requestData c m)) = false.
Proof.
  intros Hm. destruct (message_accepted_string m Hm) as (s & -> & Hs).
  simpl. apply not_true_is_false. rewrite message_rejected_true_iff.
  intros [H | [H | (s' & [= <-] & H)]]; [done | done |].
  rewrite trim_idempotent in H. done.
Qed.

(** The failure responses of [POST /api/chat]. *)
Lemma post_chat_failures NODE_ENV now b io o st :
  let r := (post_chat NODE_ENV now b io o st).2 in
  status r ≠ 200%Z →
  r = validation_error ∨ r = model_init_error ∨
  ∃ m, status r = statusCode m ∧
       body r = ("error", VString (errorMessage m))
                :: (if bool_decide (NODE_ENV = Some "development")
                    then [("details", VString m)] else [])
                ++ [("success", VBool false); ("timestamp", VString now)].
Proof.
  intros r Hr. unfold r in *. clear r. unfold post_chat in *.
  destruct (message_rejected (message b)) eqn:Hm.
  { rewrite (chat_begin_rejected b io st Hm). by left. }
  assert (∀ p, status (chat_end NODE_ENV now p o) ≠ 200%Z →
               ∃ m, status (chat_end NODE_ENV now p o) = statusCode m ∧
                    body (chat_end NODE_ENV now p o)
                    = ("error", VString (errorMessage m))
                      :: (if bool_decide (NODE_ENV = Some "development")
                          then [("details", VString m)] else [])
                      ++ [("success", VBool false); ("timestamp", VString now)]) as Hend.
  { intros p Hp. destruct o as [text|m|]; [done | exists m | exists "Request timeout"];
      unfold chat_end, res_status_json, json; simpl; by case_bool_decide. }
  destruct (chatSessions st !! chat_key b) as [k|] eqn:Hk.
  { rewrite (chat_begin_reuse b io st k Hm Hk) in *. unfold sending in *.
    right; right. by apply Hend. }
  assert (io = InitOk ∨ io ≠ InitOk) as [Hio|Hio] by (destruct io; auto).
  - rewrite (chat_begin_create b io st Hm Hk Hio) in *. unfold sending in *.
    right; right. by apply Hend.
  - rewrite (chat_begin_init_fails b io st Hm Hk Hio). by right; left.
Qed.

Lemma field_head (k : string) (v : JsValue) (rest : list (string * JsValue)) :
  field k ((k, v) :: rest) = Some v.
Proof. simpl. by rewrite bool_decide_eq_true_2. Qed.

(** What the client makes of a failure of the server: the error it gets
    carries the [error] text of the response, and it tries again after
    every failure (400, 408, 429, 500) but the 401, at which it stops. *)
Theorem client_sees_server_failure NODE_ENV now b io o st statusText :
  let r := (post_chat NODE_ENV now b io o st).2 in
  status r ≠ 200%Z →
  ∃ text, field "error" (body r) = Some (VString text) ∧
          Client.attempt_outcome (Client.Responds (Client.delivered r statusText))
          = inr (Client.new_Error text) ∧
          Client.retried (Client.new_Error text) = negb (bool_decide (status r = 401%Z)).
Proof.
  intros r Hr.
  destruct (post_chat_failures NODE_ENV now b io o st Hr) as [Hv | [Hi | (m & Hs & Hb)]];
    fold r in Hv || fold r in Hi || fold r in Hs, Hb.
  - rewrite Hv. eexists. split; [reflexivity|]. split; reflexivity.
  - rewrite Hi. eexists. split; [reflexivity|]. split; reflexivity.
  - exists (errorMessage m). rewrite Hb. split; [apply field_head|].
    unfold Client.attempt_outcome, Client.ok, Client.http_error, Client.delivered.
    cbn [Client.status Client.json Client.statusText]. rewrite Hs, Hb, field_head.
    cbn [default]. rewrite errorMessage_by_status.
    destruct (statusCode_values m) as [-> | [-> | [-> | ->]]]; split; reflexivity.
Qed.

Lemma client_sees_server_failure_witness :
  let b := {| message := VString "What about funding?"; userType := VString "existing";
              sessionId := VString "s1" |} in
  let r := (post_chat (Some "production") "t" b InitOk
              (Threw "API key not valid. Please pass a valid API key.") start).2 in
  status r = 401%Z ∧
  ∃ text,
    Client.attempt_outcome (Client.Responds (Client.delivered r "Unauthorized"))
    = inr (Client.new_Error text) ∧
    Client.retried (Client.new_Error text) = false.
Proof.
  intros b r. split; [reflexivity|].
  destruct (client_sees_server_failure (Some "production") "t" b InitOk
              (Threw "API key not valid. Please pass a valid API key.") start
              "Unauthorized" ltac:(discriminate)) as (text & _ & Ho & Hre).
  exists text. split; [exact Ho | exact Hre].
Defined.

(** One message from the client to the server and back: when the server
    handles the body the client sent for a valid message and the model
    replies, [sendMessage] returns, after one request and no pause, the
    object with the trimmed reply, the client's own user type and session
    identifier, [success] and the time. *)
Theorem client_round_trip (c : Client.ChatbotClient) (m : JsValue)
    (opts : Client.Options) (outcomes : nat → Client.FetchOutcome)
    NODE_ENV now io text st statusText :
  Client.built c →
  message_rejected m = false →
  (0 ≤ Client.retries opts)%Z →
  let b := Client.requestData c m in
  is_Some (chatSessions st !! chat_key b) ∨ io = InitOk →
  outcomes 1
  = Client.Responds
      (Client.delivered (post_chat NODE_ENV now b io (Replied text) st).2 statusText) →
  let run := Client.sendMessage c m opts outcomes in
  run.2 = Client.Returns
            (Client.PObject
               [("reply", VString (trim text));
                ("userType", VString (Client.userType c));
                ("sessionId", VString (Client.sessionId c));
                ("success", VBool true);
                ("timestamp", VString now)]) ∧
  Client.posts run.1 = [b] ∧
  Client.waits run.1 = [].
Proof.
  intros Hc Hm Hpos b Hk Hout run.
  pose proof (requestData_accepted c m Hm) as Hmb. fold b in Hmb.
  destruct (post_chat_replied NODE_ENV now b io text st Hmb Hk) as [Hr _].
  assert (Client.attempt_outcome (outcomes 1)
          = inl (Client.PObject
                   [("reply", VString (trim text));
                    ("userType", VString (Client.userType c));
                    ("sessionId", VString (Client.sessionId c));
                    ("success", VBool true);
                    ("timestamp", VString now)])) as Ho.
  { rewrite Hout, Hr. unfold b, Client.requestData.
    cbn [userType sessionId or_default].
    by rewrite (selectedUserType_of_valid _ (built_userType_valid c Hc)). }
  destruct (sendMessage_stops_at c m opts outcomes 1 Hm) as (H2 & Hp & Hw);
    [lia | lia | intros i Hi; lia | |].
  { rewrite Ho. by intros (e & ? & _). }
  fold run in H2, Hp, Hw. by rewrite H2, Hp, Hw, Ho.
Qed.

Lemma client_round_trip_witness :
  let c := Client.setUserType (VString "aspiring")
             (Client.construct None 1704110400000 "k3j9x0q2a") in
  let b := Client.requestData c (VString " How do I start a bakery? ") in
  let answer := (post_chat None "2024-01-01T12:00:00.000Z" b InitOk
                   (Replied "Start small.") start).2 in
  let run := Client.sendMessage c (VString " How do I start a bakery? ")
               Client.default_options
               (λ _, Client.Responds (Client.delivered answer "OK")) in
  run.2 = Client.Returns
            (Client.PObject
               [("reply", VString "Start small.");
                ("userType", VString "aspiring");
                ("sessionId", VString "session_1704110400000_k3j9x0q2a");
                ("success", VBool true);
                ("timestamp", VString "2024-01-01T12:00:00.000Z")]).
Proof.
  intros c b answer run.
  apply (client_round_trip c (VString " How do I start a bakery? ")
           Client.default_options (λ _, Client.Responds (Client.delivered answer "OK"))
           None "2024-01-01T12:00:00.000Z" InitOk "Start small." start "OK").
  - apply Client.built_setUserType, Client.built_construct.
  - reflexivity.
  - vm_compute. discriminate.
  - by right.
  - reflexivity.
Defined.

Lemma sessionKey_injective_witness :
  sessionKey "aspiring" (VString "s1") = "aspiring_s1" ∧
  ("aspiring" = "aspiring" ∧ "s1" = "s1").
Proof.
  split; [reflexivity|].
  apply (sessionKey_injective "aspiring" "aspiring" "s1" "s1");
    [unfold validUserTypes; in_list | unfold validUserTypes; in_list | reflexivity].
Defined.

Lemma post_chat_status_witness :
  let b := {| message := VNumber 7; userType := VString "aspiring";
              sessionId := VString "s1" |} in
  status (post_chat None "t" b InitOk (Replied "hello") start).2 = 400%Z.
Proof.
  intros b.
  apply (post_chat_status None "t" b InitOk (Replied "hello") start).
  right; left. discriminate.
Defined.

Lemma post_chat_frame_witness :
  let b1 := {| message := VString "How do I start a bakery?";
               userType := VString "aspiring"; sessionId := VString "s1" |} in
  let b2 := {| message := VString "How do I scale my shop?";
               userType := VString "existing"; sessionId := VString "s2" |} in
  let st := (post_chat None "t0" b1 InitOk (Replied "Start small.") start).1 in
  let st' := (post_chat None "t1" b2 InitOk TimerFirst st).1 in
  chatSessions st' !! "aspiring_s1" = Some 0 ∧
  chats st' !! 0 = chats st !! 0.
Proof.
  intros b1 b2 st st'.
  destruct (post_chat_frame None "t1" b2 InitOk TimerFirst st) as (Hkeep & _ & Hobj & _).
  split.
  - apply (Hkeep "aspiring_s1" 0). reflexivity.
  - apply (Hobj 0 (sendMessage "How do I start a bakery?"
                     (startChat (Some instructions_aspiring)))).
    + reflexivity.
    + discriminate.
Defined.

(** * The routes *)

Example routes_served :
  Router.handler_for Router.POST "/api/chat" = Some (Router.RChat, []) ∧
  Router.handler_for Router.GET "/API/Health/" = Some (Router.RHealth, []) ∧
  Router.handler_for Router.DELETE "/api/chat/s1" = Some (Router.RClear, ["s1"]) ∧
  Router.handler_for Router.DELETE "/api/chat/" = None ∧
  Router.handler_for Router.GET "/api/chat" = None.
Proof. by repeat split. Qed.

(** The names of the properties a response of [POST /api/chat] can
    have. *)
Lemma post_chat_body_names NODE_ENV now b io o st (name : string) :
  is_Some (field name (body (post_chat NODE_ENV now b io o st).2)) →
  name ∈ ["reply"; "userType"; "sessionId"; "success"; "timestamp"; "error"; "details"].
Proof.
  intros Hname.
  assert (∀ props : list (string * JsValue),
            is_Some (field name props) → name ∈ props.*1) as Hin.
  { induction props as [|[k v] props IH]; simpl; [by intros [? ?]|].
    case_bool_decide as Hk; [subst; intros _; apply list_elem_of_here|].
    intros H. apply list_elem_of_further. by apply IH. }
  apply Hin in Hname.
  destruct (decide (status (post_chat NODE_ENV now b io o st).2 = 200%Z)) as [H200|Hfail].
  - assert (message_rejected (message b) = false ∧
            (is_Some (chatSessions st !! chat_key b) ∨ io = InitOk) ∧
            ∃ text, o = Replied text) as (Hm & Hk & text & ->).
    { unfold post_chat in H200.
      destruct (message_rejected (message b)) eqn:Hm.
      { by rewrite (chat_begin_rejected b io st Hm) in H200. }
      assert (∀ p, status (chat_end NODE_ENV now p o) = 200%Z → ∃ text, o = Replied text)
        as Hend.
      { intros p. destruct o as [text|m|]; simpl; [eauto | |].
        - destruct (statusCode_values m) as [-> | [-> | [-> | ->]]]; done.
        - done. }
      split; [done|].
      destruct (chatSessions st !! chat_key b) as [k|] eqn:Hk.
      { rewrite (chat_begin_reuse b io st k Hm Hk) in H200. unfold sending in H200.
        split; [eauto | by eapply Hend]. }
      assert (io = InitOk ∨ io ≠ InitOk) as [Hio|Hio] by (destruct io; auto).
      - rewrite (chat_begin_create b io st Hm Hk Hio) in H200. unfold sending in H200.
        split; [eauto | by eapply Hend].
      - by rewrite (chat_begin_init_fails b io st Hm Hk Hio) in H200. }
    destruct (post_chat_replied NODE_ENV now b io text st Hm Hk) as [Hr _].
    rewrite Hr in Hname. simpl in Hname. revert Hname. rewrite !elem_of_cons. tauto.
  - destruct (post_chat_failures NODE_ENV now b io o st Hfail)
      as [Hr | [Hr | (m & _ & Hb)]].
    + rewrite Hr in Hname. simpl in Hname. revert Hname. rewrite !elem_of_cons. tauto.
    + rewrite Hr in Hname. simpl in Hname. revert Hname. rewrite !elem_of_cons. tauto.
    + rewrite Hb in Hname. case_bool_decide; simpl in Hname;
        revert Hname; rewrite !elem_of_cons; tauto.
Qed.

(** The response of [POST /api/chat] depends on the server state through
    one thing only: whether the key of the request has an entry. *)
Lemma post_chat_response_by_key NODE_ENV now b io o st st' :
  (is_Some (chatSessions st !! chat_key b) ↔ is_Some (chatSessions st' !! chat_key b)) →
  (post_chat NODE_ENV now b io o st).2 = (post_chat NODE_ENV now b io o st').2.
Proof.
  intros Hsame. unfold post_chat.
  destruct (message_rejected (message b)) eqn:Hm.
  { by rewrite !(chat_begin_rejected b io _ Hm). }
  destruct (chatSessions st !! chat_key b) as [k|] eqn:Hk;
    destruct (chatSessions st' !! chat_key b) as [k'|] eqn:Hk'.
  - by rewrite (chat_begin_reuse b io st k Hm Hk), (chat_begin_reuse b io st' k' Hm Hk').
  - destruct Hsame as [Hsame _]. by destruct Hsame; [eauto|].
  - destruct Hsame as [_ Hsame]. by destruct Hsame; [eauto|].
  - assert (io = InitOk ∨ io ≠ InitOk) as [Hio|Hio] by (destruct io; auto).
    + by rewrite (chat_begin_create b io st Hm Hk Hio), (chat_begin_create b io st' Hm Hk' Hio).
    + by rewrite (chat_begin_init_fails b io st Hm Hk Hio),
                 (chat_begin_init_fails b io st' Hm Hk' Hio).
Qed.

(** C1, as the specification states it, fails: no route of the service
    serves [GET /api/sessions]. *)
Lemma no_handler_for_get_sessions : ¬ Claimed.sessions_route.
Proof. unfold Claimed.sessions_route. by intros [? ?]. Qed.

(** C1, amended: the service has no operation that lists the sessions.  No
    route it registers matches the path [/api/sessions], for any method;
    the only handlers are those of [POST /api/chat], [GET /api/health]
    (which serves [HEAD] too) and [DELETE /api/chat/:sessionId].  The keys
    are kept in the session table as [category_sessionId] strings, but no
    response carries a [sessions] or an [activeSessions] property, and the
    response to a chat request depends on the table only through whether
    the key of that request has an entry, so it tells nothing of the other
    conversations. *)
Theorem no_sessions_route :
  (∀ m, Router.handler_for m "/api/sessions" = None) ∧
  (∀ m path route captures,
     Router.handler_for m path = Some (route, captures) →
     (m, route) ∈ [(Router.POST, Router.RChat); (Router.GET, Router.RHealth);
                   (Router.HEAD, Router.RHealth); (Router.DELETE, Router.RClear)]) ∧
  (∀ st, reachable st →
         ∀ k r, chatSessions st !! k = Some r → Sessions.category_sessionId k) ∧
  (∀ NODE_ENV now b io o sid ut st name,
     name ∈ ["activeSessions"; "sessions"] →
     field name (body (post_chat NODE_ENV now b io o st).2) = None ∧
     field name (body (get_health st).2) = None ∧
     field name (body (delete_chat sid ut st).2) = None) ∧
  (∀ NODE_ENV now b io o st st',
     (is_Some (chatSessions st !! chat_key b) ↔ is_Some (chatSessions st' !! chat_key b)) →
     (post_chat NODE_ENV now b io o st).2 = (post_chat NODE_ENV now b io o st').2).
Proof.
  split; [by intros []|]. split.
  { intros m path route captures. unfold Router.handler_for, Router.registered.
    cbn [Router.first_match].
    destruct m; cbn [Router.method_matches bool_decide decide_rel orb andb];
      simpl; intros H; repeat case_match; simplify_eq; in_list. }
  split; [apply reachable_keys|]. split; [|apply post_chat_response_by_key].
  intros NODE_ENV now b io o sid ut st name Hname.
  split; [|split].
  - destruct (field name (body (post_chat NODE_ENV now b io o st).2)) as [v|] eqn:Hf; [|done].
    assert (name ∈ ["reply"; "userType"; "sessionId"; "success"; "timestamp";
                    "error"; "details"]) as Hin.
    { apply (post_chat_body_names NODE_ENV now b io o st). by rewrite Hf. }
    revert Hname Hin. rewrite !elem_of_cons, !elem_of_nil.
    intros [-> | [-> | []]]; intros Hin; exfalso;
      repeat (destruct Hin as [Hin | Hin]; [discriminate Hin|]); done.
  - revert Hname. rewrite !elem_of_cons, !elem_of_nil. by intros [-> | [-> | []]].
  - revert Hname. rewrite !elem_of_cons, !elem_of_nil. by intros [-> | [-> | []]].
Qed.

Lemma no_sessions_route_witness :
  let b1 := {| message := VString "How do I start a bakery?";
               userType := VString "aspiring"; sessionId := VString "s1" |} in
  let b2 := {| message := VString "How do I scale my shop?";
               userType := VString "existing"; sessionId := VNumber 7 |} in
  let st := (post_chat None "t0" b2 InitOk (Replied "Hire.") start).1 in
  Router.handler_for Router.GET "/api/sessions" = None ∧
  chatSessions st !! "existing_7" = Some 0 ∧
  Sessions.category_sessionId "existing_7" ∧
  (post_chat None "t1" b1 InitOk (Replied "Start small.") st).2
  = (post_chat None "t1" b1 InitOk (Replied "Start small.") start).2.
Proof.
  intros b1 b2 st.
  destruct no_sessions_route as (Hnone & _ & Hkeys & _ & Hsame).
  split; [apply (Hnone Router.GET)|]. split; [reflexivity|]. split.
  - apply (Hkeys st (reach_post None "t0" b2 InitOk (Replied "Hire.") start reach_start)
             "existing_7" 0).
    reflexivity.
  - apply (Hsame None "t1" b1 InitOk (Replied "Start small.") st start).
    split; intros [r Hr]; discriminate Hr.
Defined.
